(** * dnsly: the domain validator and the lookup dispatcher of [dnsly/core.py]

    A shallow embedding of [validate_domain] and [dns_lookup].  Python
    strings are Rocq strings, one [ascii] per character, so the strings
    covered are those of characters below U+0100, and [len] is [length].
    The dictionaries that [dns_lookup] returns are finite maps from keys
    to values, the regular expression of the validator is a syntax tree run
    by a backtracking matcher, and the calls into the resolver library go
    through an explicit state with a call log. *)

From Stdlib Require Import Ascii String ZArith.
From stdpp Require Import gmap strings list fin_maps.

Local Open Scope string_scope.
Local Open Scope list_scope.

(** ** Characters *)

Module Chars.

Definition dquote : ascii := "034"%char.
Definition newline : ascii := "010"%char.
Definition dot : ascii := "."%char.
Definition hyphen : ascii := "-"%char.

Definition code (c : ascii) : nat := nat_of_ascii c.

Definition between (lo hi c : ascii) : bool :=
  (code lo <=? code c)%nat && (code c <=? code hi)%nat.

Definition is_lower (c : ascii) : bool := between "a" "z" c.
Definition is_upper (c : ascii) : bool := between "A" "Z" c.
Definition is_digit (c : ascii) : bool := between "0" "9" c.
Definition is_alpha (c : ascii) : bool := is_lower c || is_upper c.
Definition is_alnum (c : ascii) : bool := is_alpha c || is_digit c.
Definition is_label_char (c : ascii) : bool := is_alnum c || Ascii.eqb c hyphen.

(** [str.upper()] on one character, for the letters a to z.  The other
    letters below U+0100 are left as they are: [dns_lookup] only compares
    the result with "PTR", "MX", "TXT" and "SOA", and what Python makes of
    those letters (other letters, or SS) is in none of the four. *)
Definition upper_char (c : ascii) : ascii :=
  if is_lower c then ascii_of_nat (code c - 32) else c.

End Chars.

Import Chars.

(** ** Strings *)

Definition chars (s : string) : list ascii := list_ascii_of_string s.
Definition text (l : list ascii) : string := string_of_list_ascii l.

(** [s.upper()] *)
Definition upper (s : string) : string := text (map upper_char (chars s)).

(** [s.strip(c)]: every leading and every trailing [c] is removed. *)
Fixpoint lstrip (c : ascii) (l : list ascii) : list ascii :=
  match l with
  | x :: l' => if Ascii.eqb x c then lstrip c l' else l
  | [] => []
  end.

Definition rstrip (c : ascii) (l : list ascii) : list ascii :=
  rev (lstrip c (rev l)).

Definition strip (c : ascii) (s : string) : string :=
  text (rstrip c (lstrip c (chars s))).

(** ** Regular expressions, as [re] runs them *)

Module Re.

Inductive class_item : Type :=
| CRange (lo hi : ascii)      (* a-z *)
| CChar (c : ascii).          (* a single character of a class *)

Inductive regex : Type :=
| Bol                                        (* ^ *)
| Eol                                        (* $ *)
| Lit (c : ascii)                            (* an escaped or plain character *)
| Class (items : list class_item)            (* [...] *)
| Seq (r1 r2 : regex)                        (* r1 r2 *)
| Repeat (r : regex) (lo : nat) (hi : option nat).
                                             (* r{lo,hi}; ? + and {lo,} likewise *)

Definition item_has (c : ascii) (i : class_item) : bool :=
  match i with
  | CRange lo hi => between lo hi c
  | CChar c' => Ascii.eqb c c'
  end.

Definition in_class (items : list class_item) (c : ascii) : bool :=
  existsb (item_has c) items.

(** A matcher takes the text that is left and returns every text that can
    be left after it, the preferred (greedy) one first: the alternatives
    the backtracking engine of [re] would try, in its order. *)
Definition matcher : Type := list ascii -> list (list ascii).

Definition dec_hi (hi : option nat) : option nat :=
  match hi with Some h => Some (Nat.pred h) | None => None end.

Definition hi_is_zero (hi : option nat) : bool :=
  match hi with Some 0 => true | _ => false end.

(** Greedy repetition: one more round of [body] first, then stopping here
    when the lower bound is met.  [fuel] bounds the number of rounds; a
    round of a body that consumes a character cannot be run more often
    than the text is long. *)
Fixpoint repeat (body : matcher) (lo : nat) (hi : option nat)
    (fuel : nat) (s : list ascii) : list (list ascii) :=
  let stop := if (lo =? 0)%nat then [s] else [] in
  match fuel with
  | 0 => stop
  | S fuel' =>
      (if hi_is_zero hi then []
       else flat_map (repeat body (Nat.pred lo) (dec_hi hi) fuel') (body s))
      ++ stop
  end.

(** [run n r s]: [n] is the length of the whole subject, [s] what is left
    of it, so the matcher is at the start of the subject when
    [length s = n]. *)
Fixpoint run (n : nat) (r : regex) (s : list ascii) : list (list ascii) :=
  match r with
  | Bol => if (length s =? n)%nat then [s] else []
  | Eol =>
      match s with
      | [] => [s]
      | [c] => if Ascii.eqb c newline then [s] else []
      | _ => []
      end
  | Lit c =>
      match s with
      | x :: s' => if Ascii.eqb x c then [s'] else []
      | [] => []
      end
  | Class items =>
      match s with
      | x :: s' => if in_class items x then [s'] else []
      | [] => []
      end
  | Seq r1 r2 => flat_map (run n r2) (run n r1 s)
  | Repeat r lo hi => repeat (run n r) lo hi (length s) s
  end.

(** [pattern.match(subject)]: the match found first, as the number of
    characters it spans, or [None]. *)
Definition re_match (r : regex) (subject : string) : option nat :=
  let s := chars subject in
  match run (length s) r s with
  | rest :: _ => Some (length s - length rest)
  | [] => None
  end.

(** [bool(m)] for the result of [match]: a match object is true, [None]
    is false. *)
Definition bool_of_match (m : option nat) : bool :=
  match m with Some _ => true | None => false end.

End Re.

Import Re.

(** ** [validate_domain] *)

Definition alnum : regex :=
  Class [CRange "a" "z"; CRange "A" "Z"; CRange "0" "9"].
Definition alnum_hyphen : regex :=
  Class [CRange "a" "z"; CRange "A" "Z"; CRange "0" "9"; CChar "-"].
Definition alpha : regex :=
  Class [CRange "a" "z"; CRange "A" "Z"].

(** [[a-zA-Z0-9](?:[a-zA-Z0-9-]{0,61}[a-zA-Z0-9])?\.] *)
Definition label_dot : regex :=
  Seq alnum
    (Seq (Repeat (Seq (Repeat alnum_hyphen 0 (Some 61)) alnum) 0 (Some 1))
         (Lit ".")).

(** [^(?:[a-zA-Z0-9](?:[a-zA-Z0-9-]{0,61}[a-zA-Z0-9])?\.)+[a-zA-Z]{2,}$] *)
Definition domain_regex : regex :=
  Seq Bol
    (Seq (Repeat label_dot 1 None)
         (Seq (Repeat alpha 2 None) Eol)).

Definition validate_domain (domain : string) : bool :=
  if String.eqb domain "" || (253 <? String.length domain)%nat then false
  else bool_of_match (re_match domain_regex domain).

(** ** The grammar of the specification

    The domain syntax in the words of the specification: one or more
    labels of 1 to 63 alphanumeric-or-hyphen characters, not starting or
    ending with a hyphen, separated by dots, followed by a final label of
    at least 2 alphabetic characters. *)

Module Spec.

(** The labels of a text: the pieces between its dots. *)
Fixpoint split_on (sep : ascii) (l : list ascii) : list (list ascii) :=
  match l with
  | [] => [[]]
  | c :: l' =>
      if Ascii.eqb c sep then [] :: split_on sep l'
      else match split_on sep l' with
           | piece :: pieces => (c :: piece) :: pieces
           | [] => [[c]]
           end
  end.

Definition labels_of (s : string) : list (list ascii) :=
  split_on dot (chars s).

Definition starts_with (c : ascii) (l : list ascii) : bool :=
  match l with
  | x :: _ => Ascii.eqb x c
  | [] => false
  end.

Definition ends_with (c : ascii) (l : list ascii) : bool :=
  starts_with c (rev l).

Definition is_empty (l : list ascii) : bool :=
  match l with [] => true | _ => false end.

Definition spec_label (l : list ascii) : bool :=
  (1 <=? length l)%nat && (length l <=? 63)%nat
  && forallb is_label_char l
  && negb (starts_with hyphen l) && negb (ends_with hyphen l).

Definition spec_top_label (l : list ascii) : bool :=
  (2 <=? length l)%nat && forallb is_alpha l.

Definition spec_domain_grammar (s : string) : bool :=
  let parts := labels_of s in
  let labels := removelast parts in
  let top := List.last parts [] in
  (1 <=? length labels)%nat && forallb spec_label labels && spec_top_label top.

Definition has_empty_label (s : string) : bool :=
  existsb is_empty (labels_of s).

Fixpoint consecutive_dots (l : list ascii) : bool :=
  match l with
  | c1 :: ((c2 :: _) as l') =>
      (Ascii.eqb c1 dot && Ascii.eqb c2 dot) || consecutive_dots l'
  | _ => false
  end.

Definition has_consecutive_dots (s : string) : bool :=
  consecutive_dots (chars s).

Definition has_hyphen_at_label_boundary (s : string) : bool :=
  existsb (fun l => starts_with hyphen l || ends_with hyphen l) (labels_of s).

Definition ends_with_newline (s : string) : bool :=
  ends_with newline (chars s).

End Spec.

Import Spec.

(** ** What a matcher recognizes *)

Definition recognizes (m : matcher) (P : list ascii -> Prop) : Prop :=
  forall s v, In v (m s) <-> exists u, s = u ++ v /\ P u.

Definition one_of (p : ascii -> bool) (u : list ascii) : Prop :=
  exists c, u = [c] /\ p c = true.

Definition then_ (P Q : list ascii -> Prop) (u : list ascii) : Prop :=
  exists u1 u2, u = u1 ++ u2 /\ P u1 /\ Q u2.

Definition within (lo : nat) (hi : option nat) (k : nat) : Prop :=
  lo <= k /\ match hi with Some h => k <= h | None => True end.

Definition rounds (P : list ascii -> Prop) (lo : nat) (hi : option nat)
    (u : list ascii) : Prop :=
  exists us, u = concat us /\ Forall P us /\ within lo hi (length us).

Definition no_dot (l : list ascii) : Prop :=
  Forall (fun c => Ascii.eqb c dot = false) l.

(** What [label_dot] consumes, and what [domain_regex] accepts. *)
Definition label_piece (u : list ascii) : Prop :=
  exists l, u = l ++ [dot] /\ spec_label l = true.

Definition accepted (l : list ascii) : Prop :=
  exists labels top e,
    l = concat (map (fun x => x ++ [dot]) labels) ++ top ++ e
    /\ labels <> []
    /\ Forall (fun x => spec_label x = true) labels
    /\ spec_top_label top = true
    /\ (e = [] \/ e = [newline]).

(** ** Python values, exceptions and the resolver library *)

(** Dictionaries keep one value per key; a dictionary display inserts its
    items from left to right. *)
Definition py_dict {V : Type} (items : list (string * V)) : gmap string V :=
  fold_left (fun d kv => <[kv.1 := kv.2]> d) items ∅.

(** The values stored in the dictionaries that [dns_lookup] builds. *)
Inductive atom : Type :=
| AInt (z : Z)
| AStr (s : string).

Inductive record_val : Type :=
| RDict (d : gmap string atom)       (* an MX or SOA record *)
| RStr (s : string).                 (* any other record *)

Inductive value : Type :=
| VBool (b : bool)
| VStr (s : string)
| VInt (z : Z)
| VList (l : list record_val).

(** The exception classes that [dns_lookup] names or can meet, each with
    its base class. *)
Inductive exc_class : Type :=
| NXDOMAIN | NoAnswer | Timeout      (* dns.resolver.* *)
| DNSException                       (* dns.exception.DNSException *)
| AttributeError
| Exception.

Definition base (c : exc_class) : option exc_class :=
  match c with
  | NXDOMAIN | NoAnswer | Timeout => Some DNSException
  | DNSException | AttributeError => Some Exception
  | Exception => None
  end.

Definition exc_class_eqb (c1 c2 : exc_class) : bool :=
  match c1, c2 with
  | NXDOMAIN, NXDOMAIN | NoAnswer, NoAnswer | Timeout, Timeout
  | DNSException, DNSException | AttributeError, AttributeError
  | Exception, Exception => true
  | _, _ => false
  end.

(** [issubclass c1 c2]; the hierarchy is two levels deep. *)
Definition issubclass (c1 c2 : exc_class) : bool :=
  exc_class_eqb c1 c2
  || match base c1 with
     | Some b =>
         exc_class_eqb b c2
         || match base b with
            | Some b' => exc_class_eqb b' c2
            | None => false
            end
     | None => false
     end.

(** A raised exception: the most specific of the classes above that it is
    an instance of, and [str(e)]. *)
Record exc : Type := { exc_type : exc_class; exc_str : string }.

Definition isinstance (e : exc) (c : exc_class) : bool :=
  issubclass (exc_type e) c.

(** One answer of the resolver.  [rd_text] is [str(rdata)], [rd_class] the
    name of its class, and the fields are the attributes that [dns_lookup]
    reads, names already converted with [str]. *)
Inductive rdata_fields : Type :=
| MXFields (preference : Z) (exchange : string)
| SOAFields (mname rname : string)
            (serial refresh retry expire minimum : Z)
| NoFields.

Record rdata : Type :=
  { rd_class : string; rd_text : string; rd_fields : rdata_fields }.

Definition result (A : Type) : Type := (exc + A)%type.

Definition attribute_error {A : Type} (rd : rdata) (attr : string) : result A :=
  inl {| exc_type := AttributeError;
         exc_str := "'" +:+ rd_class rd +:+ "' object has no attribute '"
                    +:+ attr +:+ "'" |}.

Definition result_bind {A B : Type} (r : result A) (k : A -> result B)
    : result B :=
  match r with
  | inr a => k a
  | inl e => inl e
  end.

Notation "'let?' x ':=' r 'in' k" := (result_bind r (fun x => k))
  (at level 10, x name, r at level 200, k at level 200, only parsing).

Definition get_preference (rd : rdata) : result Z :=
  match rd_fields rd with
  | MXFields preference _ => inr preference
  | _ => attribute_error rd "preference"
  end.

Definition get_exchange (rd : rdata) : result string :=
  match rd_fields rd with
  | MXFields _ exchange => inr exchange
  | _ => attribute_error rd "exchange"
  end.

Definition get_soa {A : Type} (rd : rdata) (attr : string)
    (field : string -> string -> Z -> Z -> Z -> Z -> Z -> A) : result A :=
  match rd_fields rd with
  | SOAFields mname rname serial refresh retry expire minimum =>
      inr (field mname rname serial refresh retry expire minimum)
  | _ => attribute_error rd attr
  end.

Definition get_mname rd := get_soa rd "mname" (fun m _ _ _ _ _ _ => m).
Definition get_rname rd := get_soa rd "rname" (fun _ r _ _ _ _ _ => r).
Definition get_serial rd := get_soa rd "serial" (fun _ _ s _ _ _ _ => s).
Definition get_refresh rd := get_soa rd "refresh" (fun _ _ _ r _ _ _ => r).
Definition get_retry rd := get_soa rd "retry" (fun _ _ _ _ r _ _ => r).
Definition get_expire rd := get_soa rd "expire" (fun _ _ _ _ _ e _ => e).
Definition get_minimum rd := get_soa rd "minimum" (fun _ _ _ _ _ _ m => m).

(** The calls that leave [dns_lookup]. *)
Inductive call : Type :=
| FromAddress (text : string)        (* dns.reversename.from_address *)
| Resolve (qname rdtype : string).   (* Resolver().resolve: the query *)

Definition is_query (c : call) : bool :=
  match c with Resolve _ _ => true | FromAddress _ => false end.

(** The resolver library over a back-end [W] (name servers, network,
    clock).  [lib_resolve] is [dns.resolver.Resolver().resolve(qname,
    rdtype)]: answers or an exception, and the back-end after the query.
    [lib_from_address] is [str(dns.reversename.from_address(text))]. *)
Record library (W : Type) : Type :=
  { lib_resolve : W -> string -> string -> result (list rdata) * W;
    lib_from_address : string -> result string }.

Arguments lib_resolve {W}.
Arguments lib_from_address {W}.

(** ** Computations: state, call log and exceptions *)

Record state (W : Type) : Type :=
  { backend : W; calls : list call }.

Arguments backend {W}.
Arguments calls {W}.

Definition logged {W} (st : state W) (c : call) : state W :=
  {| backend := backend st; calls := calls st ++ [c] |}.

Definition queried {W} (st : state W) (w : W) (qname rdtype : string)
    : state W :=
  {| backend := w; calls := calls st ++ [Resolve qname rdtype] |}.

Definition M (W A : Type) : Type := state W -> result A * state W.

Definition ret {W A} (a : A) : M W A := fun st => (inr a, st).

Definition raise {W A} (e : exc) : M W A := fun st => (inl e, st).

Definition bind {W A B} (m : M W A) (k : A -> M W B) : M W B :=
  fun st =>
    match m st with
    | (inr a, st') => k a st'
    | (inl e, st') => (inl e, st')
    end.

Definition lift {W A} (r : result A) : M W A := fun st => (r, st).

Notation "'let*' x ':=' m 'in' k" := (bind m (fun x => k))
  (at level 10, x name, m at level 200, k at level 200, only parsing).

(** [try: body except c1: h1 except c2: h2 ...]: the first handler whose
    class the exception is an instance of runs; with none, the exception
    goes on to the caller. *)
Fixpoint dispatch {W A} (e : exc) (handlers : list (exc_class * (exc -> M W A)))
    : M W A :=
  match handlers with
  | [] => raise e
  | (c, h) :: handlers' =>
      if isinstance e c then h e else dispatch e handlers'
  end.

Definition try_except {W A} (body : M W A)
    (handlers : list (exc_class * (exc -> M W A))) : M W A :=
  fun st =>
    match body st with
    | (inr a, st') => (inr a, st')
    | (inl e, st') => dispatch e handlers st'
    end.

(** A block that either returns from the function or falls through. *)
Inductive flow (R A : Type) : Type :=
| Return (r : R)
| Continue (a : A).

Arguments Return {R A}.
Arguments Continue {R A}.

(** ** [dns_lookup] *)

(** The body of the loop over the answers: the record appended for one
    [rdata]. *)
Definition record_of (record_type : string) (rdata : rdata)
    : result record_val :=
  if String.eqb (upper record_type) "MX" then
    let? preference := get_preference rdata in
    let? exchange := get_exchange rdata in
    inr (RDict (py_dict [("preference", AInt preference);
                         ("exchange", AStr exchange)]))
  else if String.eqb (upper record_type) "TXT" then
    inr (RStr (strip dquote (rd_text rdata)))
  else if String.eqb (upper record_type) "SOA" then
    let? mname := get_mname rdata in
    let? rname := get_rname rdata in
    let? serial := get_serial rdata in
    let? refresh := get_refresh rdata in
    let? retry := get_retry rdata in
    let? expire := get_expire rdata in
    let? minimum := get_minimum rdata in
    inr (RDict (py_dict [("mname", AStr mname);
                         ("rname", AStr rname);
                         ("serial", AInt serial);
                         ("refresh", AInt refresh);
                         ("retry", AInt retry);
                         ("expire", AInt expire);
                         ("minimum", AInt minimum)]))
  else
    inr (RStr (rd_text rdata)).

(** The two dictionaries that [dns_lookup] returns. *)
Definition failure (error domain record_type : string) : gmap string value :=
  py_dict [("success", VBool false);
           ("error", VStr error);
           ("domain", VStr domain);
           ("record_type", VStr record_type)].

Definition success (domain record_type : string) (results : list record_val)
    : gmap string value :=
  py_dict [("success", VBool true);
           ("domain", VStr domain);
           ("record_type", VStr record_type);
           ("records", VList results);
           ("count", VInt (Z.of_nat (length results)))].

(** The message of the failure for an exception met while querying, by the
    class of the exception. *)
Definition error_message (record_type : string) (e : exc) : string :=
  match exc_type e with
  | NXDOMAIN => "Domain does not exist"
  | NoAnswer => "No " +:+ record_type +:+ " records found"
  | Timeout => "DNS query timed out"
  | DNSException => "DNS error: " +:+ exc_str e
  | AttributeError | Exception => "Unexpected error: " +:+ exc_str e
  end.

Section Lookup.

Context {W : Type} (lib : library W).

Definition from_address (text : string) : M W string :=
  fun st =>
    (lib_from_address lib text,
     {| backend := backend st; calls := calls st ++ [FromAddress text] |}).

Definition resolve (qname rdtype : string) : M W (list rdata) :=
  fun st =>
    let (r, w) := lib_resolve lib (backend st) qname rdtype in
    (r, {| backend := w; calls := calls st ++ [Resolve qname rdtype] |}).

(** [for rdata in answers: results.append(...)] *)
Fixpoint for_answers (record_type : string) (answers : list rdata)
    (results : list record_val) : M W (list record_val) :=
  match answers with
  | [] => ret results
  | rdata :: answers' =>
      let* record := lift (record_of record_type rdata) in
      for_answers record_type answers' (results ++ [record])
  end.

(** Lines 53 to 65: the name to query, or the dictionary to return. *)
Definition reverse_block (domain record_type : string)
    : M W (flow (gmap string value) string) :=
  if String.eqb (upper record_type) "PTR" then
    try_except
      (let* reversed_name := from_address domain in
       ret (Continue reversed_name))
      [(Exception, fun _ =>
          ret (Return (failure "Invalid IP address for PTR lookup"
                               domain record_type)))]
  else ret (Continue domain).

(** Lines 67 to 139: the query and the handlers around it. *)
Definition query_block (domain record_type : string)
    : M W (gmap string value) :=
  try_except
    (let* answers := resolve domain record_type in
     let* results := for_answers record_type answers [] in
     ret (success domain record_type results))
    [(NXDOMAIN, fun _ =>
        ret (failure "Domain does not exist" domain record_type));
     (NoAnswer, fun _ =>
        ret (failure ("No " +:+ record_type +:+ " records found")
                     domain record_type));
     (Timeout, fun _ =>
        ret (failure "DNS query timed out" domain record_type));
     (DNSException, fun e =>
        ret (failure ("DNS error: " +:+ exc_str e) domain record_type));
     (Exception, fun e =>
        ret (failure ("Unexpected error: " +:+ exc_str e)
                     domain record_type))].

Definition dns_lookup (domain record_type : string)
    : M W (gmap string value) :=
  if negb (validate_domain domain) then
    ret (failure "Invalid domain format" domain record_type)
  else
    let* ptr := reverse_block domain record_type in
    match ptr with
    | Return r => ret r
    | Continue domain => query_block domain record_type
    end.

(** The name that [dns_lookup] queries for a domain that has passed the
    validator: the reverse-lookup name when the record type is PTR and the
    conversion of the domain succeeds, no name when it raises, and the
    domain itself for every other record type. *)
Definition query_name (domain record_type : string) : option string :=
  if String.eqb (upper record_type) "PTR" then
    match lib_from_address lib domain with
    | inr reversed_name => Some reversed_name
    | inl _ => None
    end
  else Some domain.

(** The calls made before the query. *)
Definition reverse_calls (domain record_type : string) : list call :=
  if String.eqb (upper record_type) "PTR" then [FromAddress domain] else [].

(** The resolver reports an empty answer set by raising (NoAnswer), never
    by returning no answers. *)
Definition signals_no_answer : Prop :=
  forall w qname rdtype answers w',
    lib_resolve lib w qname rdtype = (inr answers, w') -> answers <> [].

(** What the query block returns for a back-end [b]: the failure for the
    exception that the resolver raised, or the success made of the records
    of the answers, or the failure for the exception raised by an answer
    without the attributes read. *)
Definition query_outcome (b : W) (qname record_type : string)
    (r : gmap string value) (w : W) : Prop :=
  (exists e,
      lib_resolve lib b qname record_type = (inl e, w)
      /\ r = failure (error_message record_type e) qname record_type)
  \/ (exists answers records,
         lib_resolve lib b qname record_type = (inr answers, w)
         /\ Forall2 (fun rdata record =>
                       record_of record_type rdata = inr record)
                    answers records
         /\ r = success qname record_type records)
  \/ (exists answers rdata e,
         lib_resolve lib b qname record_type = (inr answers, w)
         /\ In rdata answers /\ record_of record_type rdata = inl e
         /\ r = failure ("Unexpected error: " +:+ exc_str e)
                        qname record_type).

End Lookup.

(** [s] is [full] without the characters [c] around it. *)
Definition stripped_of (c : ascii) (full s : string) : Prop :=
  exists before after,
    chars full = before ++ chars s ++ after
    /\ Forall (fun x => x = c) before /\ Forall (fun x => x = c) after
    /\ starts_with c (chars s) = false /\ ends_with c (chars s) = false.

(** ** A small resolver to run the lookups against *)

Module Fixture.

(** The back-end: for each name, the answers it has per record type. *)
Definition zone : Type := list (string * list (string * list rdata)).

Fixpoint assoc {A : Type} (key : string) (l : list (string * A)) : option A :=
  match l with
  | [] => None
  | (k, a) :: l' => if String.eqb k key then Some a else assoc key l'
  end.

Definition zone_resolve (z : zone) (qname rdtype : string)
    : result (list rdata) * zone :=
  match assoc qname z with
  | None =>
      (inl {| exc_type := NXDOMAIN;
              exc_str := "The DNS query name does not exist: " +:+ qname |}, z)
  | Some rrsets =>
      match assoc (upper rdtype) rrsets with
      | None | Some [] =>
          (inl {| exc_type := NoAnswer;
                  exc_str := "The DNS response does not contain an answer" |},
           z)
      | Some answers => (inr answers, z)
      end
  end.

(** Names are never addresses. *)
Definition no_address (text : string) : result string :=
  inl {| exc_type := DNSException; exc_str := "Text input is malformed." |}.

Definition lib : library zone :=
  {| lib_resolve := zone_resolve; lib_from_address := no_address |}.

(** A converter that takes any text for an address. *)
Definition any_address (text : string) : result string :=
  inr (text +:+ ".in-addr.arpa.").

Definition converting_lib : library zone :=
  {| lib_resolve := zone_resolve; lib_from_address := any_address |}.

Definition mx_answer : rdata :=
  {| rd_class := "MX";
     rd_text := "10 mail.example.com";
     rd_fields := MXFields 10 "mail.example.com" |}.

(** The answer ["v=spf1 -all"], with its quotes. *)
Definition txt_answer : rdata :=
  {| rd_class := "TXT";
     rd_text := text ([dquote] ++ chars "v=spf1 -all" ++ [dquote]);
     rd_fields := NoFields |}.

Definition example_zone : zone :=
  [("example.com", [("MX", [mx_answer]); ("TXT", [txt_answer])])].

Definition start : state zone := {| backend := example_zone; calls := [] |}.

(** 126 labels [a] and the top label [co]: 254 characters. *)
Definition long_domain : string :=
  text (concat (replicate 126 (chars "a.")) ++ chars "co").

(** [example.com] and a newline. *)
Definition newline_domain : string :=
  text (chars "example.com" ++ [newline]).

End Fixture.

(** ** Letter case in a pattern *)


(** ** More answers to run the lookups against *)

Module Zones.

Definition soa_answer : rdata :=
  {| rd_class := "SOA";
     rd_text := "ns.example.com. admin.example.com. 2024010101 7200 3600 1209600 300";
     rd_fields := SOAFields "ns.example.com." "admin.example.com."
                            2024010101 7200 3600 1209600 300 |}.

Definition a_answer (address : string) : rdata :=
  {| rd_class := "A"; rd_text := address; rd_fields := NoFields |}.

Definition zone : Fixture.zone :=
  [("example.com",
    [("A", [a_answer "93.184.216.34"; a_answer "93.184.216.35"]);
     ("MX", [Fixture.mx_answer; a_answer "93.184.216.34"]);
     ("TXT", [Fixture.txt_answer]);
     ("SOA", [soa_answer])])].

Definition start : state Fixture.zone := {| backend := zone; calls := [] |}.

End Zones.

(** ** The command line: [dnsly/cli.py]

    The functions of [cli.py] from [print_banner] to [main], the latter
    from the parsed arguments on.  What they hand to the presentation
    libraries (rich and json) is recorded call by call; what a library
    does with a call, raising included, is the library's. *)

Module Cli.

(** A cell of a table row, as given to [add_row]. *)
Inductive cell : Type :=
| CText (s : string)              (* a string made here: key.upper() *)
| CAtom (a : atom)                (* a value of a record as it is *)
| CStrOfAtom (a : atom)           (* str(value) *)
| CStrOfRecord (r : record_val).  (* str(record) *)

(** The calls into the presentation libraries, each with the values put
    into it. *)
Inductive op : Type :=
| PrintBanner                            (* line 39 *)
| PrintError (error : value)             (* line 45 *)
| PrintResultsFor (domain : value)       (* line 48 *)
| PrintRecordType (record_type : value)  (* line 49 *)
| PrintRecordsFound (count : value)      (* line 50 *)
| NewTable                               (* line 53: Table(...) *)
| AddColumn (name : string)
| AddRow (cells : list cell)
| AddItemRows (record : gmap string atom)
    (* lines 65 and 66: one row (key.upper(), str(value)) for each item of
       the record, in the order of the record *)
| PrintTable                             (* line 73 *)
| PrintCompleted                         (* line 76 *)
| PrintJson (result : gmap string value) (* line 81: json.dumps and print *)
| PrintQuerying (record_type : string)   (* line 96 *)
| ProgressStart                          (* lines 100 to 105: Progress(...)
                                            and its __enter__ *)
| ProgressAddTask (record_type : string) (* line 106 *)
| ProgressUpdate                         (* line 108 *)
| ProgressStop                           (* the __exit__ of the Progress *)
| PrintInvalidType (rt : string)         (* line 197 *)
| PrintValidTypes (valid_types : list string)  (* line 198 *)
| PrintCancelled                         (* line 213 *)
| PrintUnexpected (error : string)       (* line 217 *)
| PrintTraceback.                        (* lines 219 and 220 *)

(** What [main] can meet: an interrupt of the user, or an exception. *)
Inductive cli_exc : Type :=
| KeyboardInterrupt
| Raised (e : exc).

Definition outcome (A : Type) : Type := (cli_exc + A)%type.

(** The presentation libraries over their state [C]. *)
Record presenter (C : Type) : Type :=
  { present : C -> op -> outcome unit * C }.

Arguments present {C}.

(** The resolver side as before, the presentation side, and the calls
    shown so far. *)
Record cli_state (W C : Type) : Type :=
  { net : state W; screen : C; shown : list op }.

Arguments net {W C}.
Arguments screen {W C}.
Arguments shown {W C}.

Definition CM (W C A : Type) : Type :=
  cli_state W C -> outcome A * cli_state W C.

Definition cret {W C A} (a : A) : CM W C A := fun s => (inr a, s).

Definition cbind {W C A B} (m : CM W C A) (k : A -> CM W C B) : CM W C B :=
  fun s =>
    match m s with
    | (inr a, s') => k a s'
    | (inl e, s') => (inl e, s')
    end.

Notation "'let!' x ':=' m 'in' k" := (cbind m (fun x => k))
  (at level 10, x name, m at level 200, k at level 200, only parsing).

(** An exception raised by the code of [cli.py] itself. *)
Definition clift {W C A} (r : result A) : CM W C A :=
  fun s =>
    match r with
    | inr a => (inr a, s)
    | inl e => (inl (Raised e), s)
    end.

(** [with Progress(...) as progress: body]: the progress display is
    stopped however the body ends. *)
Definition finally {W C A} (body : CM W C A) (cleanup : CM W C unit)
    : CM W C A :=
  fun s =>
    match body s with
    | (r, s') =>
        match cleanup s' with
        | (inr _, s'') => (r, s'')
        | (inl e, s'') => (inl e, s'')
        end
    end.

(** *** Values as Python uses them *)

(** [d[key]] *)
Definition getitem {V : Type} (d : gmap string V) (key : string) : result V :=
  match d !! key with
  | Some v => inr v
  | None => inl {| exc_type := Exception;       (* a KeyError *)
                   exc_str := "'" +:+ key +:+ "'" |}
  end.

(** The truth value of a value. *)
Definition truthy (v : value) : bool :=
  match v with
  | VBool b => b
  | VStr s => negb (String.eqb s "")
  | VInt z => negb (z =? 0)%Z
  | VList l => match l with [] => false | _ => true end
  end.

Definition type_name (v : value) : string :=
  match v with
  | VBool _ => "bool"
  | VStr _ => "str"
  | VInt _ => "int"
  | VList _ => "list"
  end.

(** [v.upper()] *)
Definition upper_of (v : value) : result string :=
  match v with
  | VStr s => inr (upper s)
  | _ => inl {| exc_type := AttributeError;
                exc_str := "'" +:+ type_name v
                           +:+ "' object has no attribute 'upper'" |}
  end.

(** [iter(v)], for a loop over [v]: the characters of a string, the items
    of a list. *)
Definition iter_of (v : value) : result (list record_val) :=
  match v with
  | VList l => inr l
  | VStr s => inr (map (fun c => RStr (String c "")) (chars s))
  | _ => inl {| exc_type := Exception;          (* a TypeError *)
                exc_str := "'" +:+ type_name v
                           +:+ "' object is not iterable" |}
  end.

(** [record[key]]; the text of the TypeError is that of Python 3.11 and
    later. *)
Definition index_of (record : record_val) (key : string) : result atom :=
  match record with
  | RDict d => getitem d key
  | RStr _ => inl {| exc_type := Exception;     (* a TypeError *)
                     exc_str := "string indices must be integers, not 'str'" |}
  end.

(** [record.items()] *)
Definition items_of (record : record_val) : result (gmap string atom) :=
  match record with
  | RDict d => inr d
  | RStr _ => inl {| exc_type := AttributeError;
                     exc_str := "'str' object has no attribute 'items'" |}
  end.

(** [s.strip()]: the white space of Python among the characters below
    U+0100. *)
Definition is_space (c : ascii) : bool :=
  let n := code c in
  ((9 <=? n)%nat && (n <=? 13)%nat) || ((28 <=? n)%nat && (n <=? 32)%nat)
  || (n =? 133)%nat || (n =? 160)%nat.

Fixpoint lstrip_spaces (l : list ascii) : list ascii :=
  match l with
  | x :: l' => if is_space x then lstrip_spaces l' else l
  | [] => []
  end.

Definition strip_spaces (s : string) : string :=
  text (rev (lstrip_spaces (rev (lstrip_spaces (chars s))))).

(** [s.split(",")] *)
Definition split_commas (s : string) : list string :=
  map text (split_on "," (chars s)).

(** *** The functions *)

(** The parsed arguments. *)
Record args : Type :=
  { domain : string;
    record_type : string;
    output : string;         (* text or json *)
    verbose : bool;
    quiet : bool }.

Definition all_types : list string :=
  ["A"; "AAAA"; "CNAME"; "MX"; "NS"; "TXT"; "SOA"].

Definition valid_types : list string :=
  ["A"; "AAAA"; "CNAME"; "MX"; "NS"; "TXT"; "SOA"; "PTR"].

(** [rt in valid_types] *)
Definition is_valid_type (rt : string) : bool :=
  existsb (String.eqb rt) valid_types.

(** Lines 186 to 190.  For a type with a letter beyond ASCII the capital
    may not be the one of Python; such a type is in [valid_types] neither
    here nor there. *)
Definition parse_record_types (record_type : string) : list string :=
  if String.eqb (upper record_type) "ALL" then all_types
  else map (fun rt => upper (strip_spaces rt)) (split_commas record_type).

Section Functions.

Context {W C : Type} (lib : library W) (P : presenter C).

Definition show (o : op) : CM W C unit :=
  fun s =>
    let (r, c) := present P (screen s) o in
    (r, {| net := net s; screen := c; shown := shown s ++ [o] |}).

(** A call of [dns_lookup]. *)
Definition lookup (domain record_type : string)
    : CM W C (gmap string value) :=
  fun s =>
    let (r, st) := dns_lookup lib domain record_type (net s) in
    (match r with
     | inr d => inr d
     | inl e => inl (Raised e)
     end,
     {| net := st; screen := screen s; shown := shown s |}).

Fixpoint for_each {A : Type} (l : list A) (body : A -> CM W C unit)
    : CM W C unit :=
  match l with
  | [] => cret tt
  | x :: l' => let! _ := body x in for_each l' body
  end.

Definition print_banner (quiet : bool) : CM W C unit :=
  if negb quiet then show PrintBanner else cret tt.

Definition format_text_output (result : gmap string value) (verbose : bool)
    : CM W C unit :=
  let! success := clift (getitem result "success") in
  if negb (truthy success) then
    let! error := clift (getitem result "error") in
    show (PrintError error)
  else
    let! domain := clift (getitem result "domain") in
    let! _ := show (PrintResultsFor domain) in
    let! record_type := clift (getitem result "record_type") in
    let! _ := show (PrintRecordType record_type) in
    let! count := clift (getitem result "count") in
    let! _ := show (PrintRecordsFound count) in
    let! _ := show NewTable in
    let! record_type := clift (getitem result "record_type") in
    let! upper_type := clift (upper_of record_type) in
    let! _ :=
      if String.eqb upper_type "MX" then
        let! _ := show (AddColumn "Priority") in
        let! _ := show (AddColumn "Mail Server") in
        let! records := clift (getitem result "records") in
        let! records := clift (iter_of records) in
        for_each records (fun record =>
          let! preference := clift (index_of record "preference") in
          let! exchange := clift (index_of record "exchange") in
          show (AddRow [CStrOfAtom preference; CAtom exchange]))
      else
        let! record_type := clift (getitem result "record_type") in
        let! upper_type := clift (upper_of record_type) in
        if String.eqb upper_type "SOA" then
          let! _ := show (AddColumn "Field") in
          let! _ := show (AddColumn "Value") in
          let! records := clift (getitem result "records") in
          let! records := clift (iter_of records) in
          for_each records (fun record =>
            let! items := clift (items_of record) in
            show (AddItemRows items))
        else
          let! _ := show (AddColumn "Record") in
          let! records := clift (getitem result "records") in
          let! records := clift (iter_of records) in
          for_each records (fun record =>
            show (AddRow [CStrOfRecord record]))
    in
    let! _ := show PrintTable in
    if verbose then show PrintCompleted else cret tt.

Definition format_json_output (result : gmap string value) : CM W C unit :=
  show (PrintJson result).

(** The body of the loop of [perform_lookup] for one record type, with [n]
    the number of record types; it returns the exit code so far. *)
Definition perform_one (domain : string) (n : nat) (output_format : string)
    (verbose quiet : bool) (exit_code : Z) (record_type : string)
    : CM W C Z :=
  let! _ :=
    if negb quiet && (1 <? n)%nat then show (PrintQuerying record_type)
    else cret tt
  in
  let! result :=
    if negb quiet && (n =? 1)%nat then
      let! _ := show ProgressStart in
      finally
        (let! _ := show (ProgressAddTask record_type) in
         let! result := lookup domain record_type in
         let! _ := show ProgressUpdate in
         cret result)
        (show ProgressStop)
    else lookup domain record_type
  in
  let! _ :=
    if String.eqb output_format "json" then format_json_output result
    else format_text_output result verbose
  in
  let! success := clift (getitem result "success") in
  cret (if negb (truthy success) then 1%Z else exit_code).

Fixpoint perform_loop (domain : string) (n : nat) (output_format : string)
    (verbose quiet : bool) (record_types : list string) (exit_code : Z)
    : CM W C Z :=
  match record_types with
  | [] => cret exit_code
  | record_type :: record_types' =>
      let! exit_code :=
        perform_one domain n output_format verbose quiet exit_code
                    record_type
      in
      perform_loop domain n output_format verbose quiet record_types'
                   exit_code
  end.

Definition perform_lookup (domain : string) (record_types : list string)
    (output_format : string) (verbose quiet : bool) : CM W C Z :=
  perform_loop domain (length record_types) output_format verbose quiet
               record_types 0%Z.

(** Lines 194 to 199: the exit code when a type is not valid. *)
Fixpoint check_types (record_types : list string) : CM W C (option Z) :=
  match record_types with
  | [] => cret None
  | rt :: record_types' =>
      if negb (is_valid_type rt) then
        let! _ := show (PrintInvalidType rt) in
        let! _ := show (PrintValidTypes valid_types) in
        cret (Some 1%Z)
      else check_types record_types'
  end.

(** [main], after [parser.parse_args()]. *)
Definition main (a : args) : CM W C Z :=
  let! _ := print_banner (quiet a || String.eqb (output a) "json") in
  let record_types := parse_record_types (record_type a) in
  let! invalid := check_types record_types in
  match invalid with
  | Some exit_code => cret exit_code
  | None =>
      fun s =>
        match perform_lookup (domain a) record_types (output a)
                             (verbose a) (quiet a) s with
        | (inr exit_code, s') => (inr exit_code, s')
        | (inl KeyboardInterrupt, s') =>
            (let! _ := show PrintCancelled in cret 1%Z) s'
        | (inl (Raised e), s') =>
            (* every exception of the model is an Exception *)
            (let! _ := show (PrintUnexpected (exc_str e)) in
             let! _ := if verbose a then show PrintTraceback else cret tt in
             cret 1%Z) s'
        end
  end.

(** *** Reference runs *)

(** The lookups of [domain] for the record types, one after the other,
    each from the state the one before has left. *)
Fixpoint lookups (domain : string) (record_types : list string)
    (st : state W) : list (gmap string value) * state W :=
  match record_types with
  | [] => ([], st)
  | record_type :: record_types' =>
      match dns_lookup lib domain record_type st with
      | (inr r, st') =>
          let (rs, st'') := lookups domain record_types' st' in
          (r :: rs, st'')
      | (inl _, st') => ([], st')
      end
  end.

Definition succeeded (r : gmap string value) : bool :=
  match r !! "success" with
  | Some (VBool true) => true
  | _ => false
  end.

(** The libraries of the presentation never raise. *)
Definition never_raises : Prop :=
  forall c o, fst (present P c o) = inr tt.

End Functions.

(** *** Runs *)

(** [m] returns [a] from [s], leaves the resolver side in [st] and has
    made the calls [os] into the presentation libraries. *)
Definition returns {W C A : Type} (m : CM W C A) (s : cli_state W C)
    (a : A) (st : state W) (os : list op) : Prop :=
  exists c, m s = (inr a, {| net := st; screen := c; shown := shown s ++ os |}).

(** However [m] ends, the resolver side before and after it are related
    by [R]. *)
Definition net_inv {W C A : Type} (R : state W -> state W -> Prop)
    (m : CM W C A) : Prop :=
  forall s, R (net s) (net (snd (m s))).

(** The resolver side has grown by calls about [domain] only, and by
    queries for valid record types only. *)
Definition valid_call (domain : string) (c : call) : Prop :=
  match c with
  | FromAddress text => text = domain
  | Resolve _ rdtype => is_valid_type rdtype = true
  end.

Definition grown_by_valid_calls {W : Type} (domain : string)
    (st st' : state W) : Prop :=
  exists cs, calls st' = calls st ++ cs /\ Forall (valid_call domain) cs.

(** The calls that put rows into a table. *)
Definition is_row (o : op) : bool :=
  match o with
  | AddRow _ | AddItemRows _ => true
  | _ => false
  end.

End Cli.

(** ** A presentation that shows everything, to run the command line *)

Module Screen.

Definition plain : Cli.presenter unit :=
  {| Cli.present := fun c _ => (inr tt, c) |}.

(** A console that cannot print tables, and a user who interrupts the
    progress display. *)
Definition no_tables : Cli.presenter unit :=
  {| Cli.present := fun c o =>
       match o with
       | Cli.PrintTable =>
           (inl (Cli.Raised {| exc_type := Exception;
                               exc_str := "cannot print a table" |}), c)
       | _ => (inr tt, c)
       end |}.

Definition interrupted : Cli.presenter unit :=
  {| Cli.present := fun c o =>
       match o with
       | Cli.ProgressUpdate => (inl Cli.KeyboardInterrupt, c)
       | _ => (inr tt, c)
       end |}.

Definition start : Cli.cli_state Fixture.zone unit :=
  {| Cli.net := Zones.start; Cli.screen := tt; Cli.shown := [] |}.

Definition arguments (domain record_type output : string)
    (verbose quiet : bool) : Cli.args :=
  {| Cli.domain := domain; Cli.record_type := record_type;
     Cli.output := output; Cli.verbose := verbose; Cli.quiet := quiet |}.

End Screen.


(** ** The matcher on the parts of the pattern *)

Lemma recognizes_class n items :
  recognizes (run n (Class items)) (one_of (in_class items)).
Proof.
  intros s v. simpl. split.
  - destruct s as [|x s']; [intros []|].
    destruct (in_class items x) eqn:E; [|intros []].
    intros [<-|[]]. exists [x]. split; [reflexivity|]. exists x. auto.
  - intros (u & -> & c & -> & Hc). simpl. rewrite Hc. left. reflexivity.
Qed.

Lemma recognizes_lit n c :
  recognizes (run n (Lit c)) (fun u => u = [c]).
Proof.
  intros s v. simpl. split.
  - destruct s as [|x s']; [intros []|].
    destruct (Ascii.eqb x c) eqn:E; [|intros []].
    apply Ascii.eqb_eq in E. subst x.
    intros [<-|[]]. exists [c]. auto.
  - intros (u & -> & ->). simpl. rewrite Ascii.eqb_refl. left. reflexivity.
Qed.

Lemma recognizes_seq n r1 r2 P Q :
  recognizes (run n r1) P -> recognizes (run n r2) Q ->
  recognizes (run n (Seq r1 r2)) (then_ P Q).
Proof.
  intros H1 H2 s v. simpl. rewrite in_flat_map. split.
  - intros (w & Hw & Hv).
    apply H1 in Hw as (u1 & -> & Hu1). apply H2 in Hv as (u2 & -> & Hu2).
    exists (u1 ++ u2). rewrite <- app_assoc. split; [reflexivity|].
    exists u1, u2. auto.
  - intros (u & -> & u1 & u2 & -> & Hu1 & Hu2).
    exists (u2 ++ v). split.
    + apply H1. exists u1. rewrite <- app_assoc. auto.
    + apply H2. exists u2. auto.
Qed.

Lemma within_step lo hi k :
  hi_is_zero hi = false ->
  within (Nat.pred lo) (dec_hi hi) k -> within lo hi (S k).
Proof.
  unfold within. intros Hz [Hlo Hhi]. split; [lia|].
  destruct hi as [[|h]|]; simpl in *; try discriminate; lia.
Qed.

Lemma within_back lo hi k :
  within lo hi (S k) ->
  hi_is_zero hi = false /\ within (Nat.pred lo) (dec_hi hi) k.
Proof.
  unfold within. intros [Hlo Hhi].
  destruct hi as [[|h]|]; simpl in *; repeat split; try lia.
Qed.

(** Enough fuel: a body that consumes at least one character per round is
    run as often as the text allows. *)
Lemma repeat_spec body P :
  recognizes body P -> (forall u, P u -> u <> []) ->
  forall fuel lo hi s v, length s <= fuel ->
    (In v (repeat body lo hi fuel s) <->
     exists u, s = u ++ v /\ rounds P lo hi u).
Proof.
  intros Hbody Hne. induction fuel as [|fuel IH]; intros lo hi s v Hlen.
  - destruct s; [|simpl in Hlen; lia]. simpl. split.
    + destruct (Nat.eqb_spec lo 0) as [->|]; [|intros []].
      intros [<-|[]]. exists []. split; [reflexivity|].
      exists []. repeat split; simpl; auto. destruct hi; [lia|exact I].
    + intros (u & Hs & us & -> & HP & Hlo & _).
      symmetry in Hs. apply app_eq_nil in Hs as [Hc ->].
      destruct us as [|u1 us].
      * simpl in Hlo. replace lo with 0 by lia. left. reflexivity.
      * exfalso. inversion HP; subst. simpl in Hc.
        apply app_eq_nil in Hc as [-> _]. eapply Hne; eauto.
  - simpl. rewrite in_app_iff. split.
    + intros [Hin|Hin].
      * destruct (hi_is_zero hi) eqn:Hz; [destruct Hin|].
        apply in_flat_map in Hin as (w & Hw & Hv).
        apply Hbody in Hw as (u1 & -> & Hu1).
        assert (length w <= fuel).
        { pose proof (Hne _ Hu1). rewrite length_app in Hlen.
          destruct u1; [congruence|simpl in Hlen; lia]. }
        apply IH in Hv as (u & -> & us & -> & HP & Hw); [|assumption].
        exists (u1 ++ concat us). rewrite <- app_assoc.
        split; [reflexivity|]. exists (u1 :: us).
        split; [reflexivity|]. split; [constructor; assumption|].
        simpl. apply within_step; assumption.
      * destruct (Nat.eqb_spec lo 0) as [->|]; [|destruct Hin].
        destruct Hin as [<-|[]]. exists []. split; [reflexivity|].
        exists []. repeat split; simpl; auto. destruct hi; [lia|exact I].
    + intros (u & -> & us & -> & HP & Hw).
      destruct us as [|u1 us].
      * right. destruct Hw as [Hlo _]. simpl in Hlo.
        replace lo with 0 by lia. left. reflexivity.
      * left. simpl in Hw. apply within_back in Hw as [Hz Hw].
        rewrite Hz. inversion HP; subst.
        apply in_flat_map. exists (concat us ++ v). split.
        -- apply Hbody. exists u1. simpl. rewrite <- app_assoc. auto.
        -- apply IH.
           ++ pose proof (Hne _ H1). simpl in Hlen.
              rewrite !length_app in Hlen. rewrite length_app.
              destruct u1; [congruence|simpl in Hlen; lia].
           ++ exists (concat us). split; [reflexivity|].
              exists us. auto.
Qed.

Lemma recognizes_repeat n r lo hi P :
  recognizes (run n r) P -> (forall u, P u -> u <> []) ->
  recognizes (run n (Repeat r lo hi)) (rounds P lo hi).
Proof.
  intros Hr Hne s v. simpl. apply repeat_spec with (P := P); auto.
Qed.

(** More fuel than the length of the text changes nothing. *)
Lemma repeat_fuel body P :
  recognizes body P -> (forall u, P u -> u <> []) ->
  forall fuel lo hi s v, length s <= fuel ->
    (In v (repeat body lo hi fuel s) <->
     In v (repeat body lo hi (length s) s)).
Proof.
  intros Hbody Hne fuel lo hi s v Hlen.
  rewrite (repeat_spec body P Hbody Hne fuel) by assumption.
  rewrite (repeat_spec body P Hbody Hne (length s)) by lia.
  reflexivity.
Qed.


Lemma recognizes_ext m P Q :
  (forall u, P u <-> Q u) -> recognizes m P -> recognizes m Q.
Proof.
  intros HPQ Hm s v. rewrite (Hm s v).
  split; intros (u & Hs & Hu); exists u; (split; [assumption|]);
    apply HPQ; assumption.
Qed.

Lemma one_of_nonempty p u : one_of p u -> u <> [].
Proof. intros (c & -> & _). discriminate. Qed.

Lemma rounds_one_of p lo hi u :
  rounds (one_of p) lo hi u <->
  forallb p u = true /\ within lo hi (length u).
Proof.
  split.
  - intros (us & -> & HP & Hw).
    assert (forallb p (concat us) = true /\ length (concat us) = length us)
      as [Hall Hlen].
    { clear Hw. induction HP as [|x us (c & -> & Hc) _ [IH1 IH2]].
      - auto.
      - simpl. rewrite Hc, IH1, IH2. auto. }
    rewrite Hlen. auto.
  - intros [Hall Hw]. exists (map (fun c => [c]) u).
    rewrite length_map. repeat split; try apply Hw.
    + clear. induction u as [|c u IH]; simpl; congruence.
    + clear Hw. induction u as [|c u IH]; simpl in *; constructor.
      * exists c. apply andb_prop in Hall as [-> _]. auto.
      * apply IH. apply andb_prop in Hall as [_ ->]. reflexivity.
Qed.

(** *** The character classes *)

Lemma class_alnum c :
  in_class [CRange "a" "z"; CRange "A" "Z"; CRange "0" "9"] c = is_alnum c.
Proof.
  unfold in_class, is_alnum, is_alpha, is_lower, is_upper, is_digit. simpl.
  rewrite orb_false_r, orb_assoc. reflexivity.
Qed.

Lemma class_alnum_hyphen c :
  in_class [CRange "a" "z"; CRange "A" "Z"; CRange "0" "9"; CChar "-"] c
  = is_label_char c.
Proof.
  unfold in_class, is_label_char, is_alnum, is_alpha, is_lower, is_upper,
    is_digit. simpl.
  rewrite orb_false_r, !orb_assoc. reflexivity.
Qed.

Lemma class_alpha c :
  in_class [CRange "a" "z"; CRange "A" "Z"] c = is_alpha c.
Proof.
  unfold in_class, is_alpha, is_lower, is_upper. simpl.
  rewrite orb_false_r. reflexivity.
Qed.

Lemma alnum_not_hyphen c : is_alnum c = true -> Ascii.eqb c hyphen = false.
Proof.
  intros H. destruct (Ascii.eqb_spec c hyphen) as [->|]; [|reflexivity].
  vm_compute in H. discriminate.
Qed.

Lemma label_char_alnum c :
  is_label_char c = true -> Ascii.eqb c hyphen = false -> is_alnum c = true.
Proof.
  unfold is_label_char. intros H E. rewrite E, orb_false_r in H. exact H.
Qed.

Lemma alnum_label_char c : is_alnum c = true -> is_label_char c = true.
Proof. unfold is_label_char. intros ->. reflexivity. Qed.

Lemma alpha_alnum c : is_alpha c = true -> is_alnum c = true.
Proof. unfold is_alnum. intros ->. reflexivity. Qed.

Lemma label_char_not_dot c : is_label_char c = true -> Ascii.eqb c dot = false.
Proof.
  intros H. destruct (Ascii.eqb_spec c dot) as [->|]; [|reflexivity].
  vm_compute in H. discriminate.
Qed.

Lemma alpha_not_dot c : is_alpha c = true -> Ascii.eqb c dot = false.
Proof.
  intros H. apply label_char_not_dot, alnum_label_char, alpha_alnum, H.
Qed.

Lemma recognizes_alnum n : recognizes (run n alnum) (one_of is_alnum).
Proof.
  eapply recognizes_ext; [|apply recognizes_class].
  intros u. split; intros (c & -> & Hc); exists c;
    rewrite class_alnum in *; auto.
Qed.

Lemma recognizes_alnum_hyphen n :
  recognizes (run n alnum_hyphen) (one_of is_label_char).
Proof.
  eapply recognizes_ext; [|apply recognizes_class].
  intros u. split; intros (c & -> & Hc); exists c;
    rewrite class_alnum_hyphen in *; auto.
Qed.

Lemma recognizes_alpha n : recognizes (run n alpha) (one_of is_alpha).
Proof.
  eapply recognizes_ext; [|apply recognizes_class].
  intros u. split; intros (c & -> & Hc); exists c;
    rewrite class_alpha in *; auto.
Qed.

(** *** Labels *)

Lemma spec_label_iff l :
  spec_label l = true <->
  1 <= length l <= 63 /\ forallb is_label_char l = true
  /\ starts_with hyphen l = false /\ ends_with hyphen l = false.
Proof.
  unfold spec_label. rewrite !andb_true_iff, !negb_true_iff.
  rewrite !Nat.leb_le. tauto.
Qed.

Lemma ends_with_snoc c l d : ends_with c (l ++ [d]) = Ascii.eqb d c.
Proof. unfold ends_with. rewrite rev_app_distr. reflexivity. Qed.

Lemma label_shape u :
  then_ (one_of is_alnum)
    (then_ (rounds (then_ (rounds (one_of is_label_char) 0 (Some 61))
                          (one_of is_alnum)) 0 (Some 1))
           (fun w => w = ["."%char])) u
  <-> label_piece u.
Proof.
  split.
  - intros (u1 & u2 & -> & (c & -> & Hc) & x & w & -> & Hx & ->).
    destruct Hx as (us & -> & HP & _ & Hhi).
    exists (c :: concat us). split; [reflexivity|].
    apply spec_label_iff.
    destruct us as [|t us].
    + simpl. rewrite (alnum_label_char c Hc), (alnum_not_hyphen c Hc).
      unfold ends_with. simpl. rewrite (alnum_not_hyphen c Hc).
      repeat split; lia.
    + destruct us; [|simpl in Hhi; lia]. simpl. rewrite app_nil_r.
      inversion HP as [|? ? Ht _]; subst.
      destruct Ht as (mid & e & -> & Hmid & d & -> & Hd).
      apply rounds_one_of in Hmid as [Hall [_ Hlen]].
      rewrite length_app. simpl.
      rewrite forallb_app, Hall, (alnum_label_char c Hc). simpl.
      rewrite (alnum_label_char d Hd), (alnum_not_hyphen c Hc).
      change (c :: mid ++ [d]) with ((c :: mid) ++ [d]).
      rewrite ends_with_snoc, (alnum_not_hyphen d Hd).
      repeat split; lia.
  - intros (l & -> & Hl). apply spec_label_iff in Hl
      as ([Hlo Hhi] & Hall & Hstart & Hend).
    destruct l as [|c rest]; [simpl in Hlo; lia|].
    simpl in Hall, Hstart. apply andb_prop in Hall as [Hc Hrest].
    exists [c], (rest ++ [dot]). split; [reflexivity|]. split.
    { exists c. split; [reflexivity|]. apply label_char_alnum; assumption. }
    exists rest, [dot]. split; [reflexivity|]. split; [|reflexivity].
    destruct rest as [|x rest'] using rev_ind.
    + exists []. repeat split; simpl; auto.
    + clear IHrest'. rename rest' into mid.
      change (c :: mid ++ [x]) with ((c :: mid) ++ [x]) in Hend.
      rewrite ends_with_snoc in Hend.
      rewrite forallb_app in Hrest. apply andb_prop in Hrest as [Hmid Hx].
      simpl in Hx. rewrite andb_true_r in Hx.
      exists [mid ++ [x]]. simpl. rewrite app_nil_r.
      split; [reflexivity|]. split; [|unfold within; simpl; lia].
      constructor; [|constructor].
      exists mid, [x]. split; [reflexivity|]. split.
      * apply rounds_one_of. split; [assumption|].
        simpl in Hhi. rewrite length_app in Hhi. simpl in Hhi.
        unfold within. lia.
      * exists x. split; [reflexivity|]. apply label_char_alnum; assumption.
Qed.

Lemma recognizes_label_dot n : recognizes (run n label_dot) label_piece.
Proof.
  eapply recognizes_ext; [apply label_shape|].
  unfold label_dot.
  apply recognizes_seq; [apply recognizes_alnum|].
  apply recognizes_seq; [|apply recognizes_lit].
  apply recognizes_repeat.
  - apply recognizes_seq; [|apply recognizes_alnum].
    apply recognizes_repeat; [apply recognizes_alnum_hyphen|].
    apply one_of_nonempty.
  - intros u (u1 & u2 & -> & _ & (c & -> & _)). destruct u1; discriminate.
Qed.

Lemma label_piece_nonempty u : label_piece u -> u <> [].
Proof. intros (l & -> & _). destruct l; discriminate. Qed.

(** *** The whole pattern *)

Lemma chars_text l : chars (text l) = l.
Proof. apply list_ascii_of_string_of_list_ascii. Qed.

Lemma text_chars s : text (chars s) = s.
Proof. apply string_of_list_ascii_of_string. Qed.

Lemma length_chars s : length (chars s) = String.length s.
Proof. induction s as [|c s IH]; simpl; congruence. Qed.

Lemma run_eol n s v :
  In v (run n Eol s) <-> v = s /\ (s = [] \/ s = [newline]).
Proof.
  simpl. destruct s as [|c [|c' s']].
  - simpl. intuition.
  - destruct (Ascii.eqb_spec c newline) as [->|Hc]; simpl.
    + intuition.
    + split; [intros []|]. intros [_ [H|H]]; [discriminate|].
      injection H as H. contradiction.
  - simpl. split; [intros []|]. intros [_ [H|H]]; discriminate.
Qed.

Lemma pieces_labels us :
  Forall label_piece us <->
  exists labels, us = map (fun x => x ++ [dot]) labels
                 /\ Forall (fun x => spec_label x = true) labels.
Proof.
  split.
  - induction 1 as [|u us (l & -> & Hl) _ (labels & -> & IH)].
    + exists []. auto.
    + exists (l :: labels). auto.
  - intros (labels & -> & H). induction H as [|l labels Hl _ IH]; simpl.
    + constructor.
    + constructor; [exists l; auto|assumption].
Qed.

Lemma spec_top_label_iff l :
  spec_top_label l = true <-> forallb is_alpha l = true /\ 2 <= length l.
Proof.
  unfold spec_top_label. rewrite andb_true_iff, Nat.leb_le. tauto.
Qed.

Lemma in_run_seq n r1 r2 s v :
  In v (run n (Seq r1 r2) s) <->
  exists w, In w (run n r1 s) /\ In v (run n r2 w).
Proof. simpl. apply in_flat_map. Qed.

Lemma in_run_bol l v : In v (run (length l) Bol l) <-> v = l.
Proof. simpl. rewrite Nat.eqb_refl. simpl. intuition. Qed.

Lemma run_domain_regex l :
  (exists v, In v (run (length l) domain_regex l)) <-> accepted l.
Proof.
  unfold domain_regex.
  pose proof (recognizes_repeat (length l) label_dot 1 None label_piece
                (recognizes_label_dot _) label_piece_nonempty) as Hlabels.
  pose proof (recognizes_repeat (length l) alpha 2 None (one_of is_alpha)
                (recognizes_alpha _) (one_of_nonempty _)) as Htop.
  split.
  - intros (v & Hv).
    apply in_run_seq in Hv as (w0 & Hw0 & Hv). apply in_run_bol in Hw0 as ->.
    apply in_run_seq in Hv as (w1 & Hw1 & Hv).
    apply in_run_seq in Hv as (w2 & Hw2 & Hv).
    apply Hlabels in Hw1 as (u1 & Hl & us & -> & Hus & Hn & _).
    apply Htop in Hw2 as (u2 & -> & Hu2).
    apply rounds_one_of in Hu2 as [Hall [Hlen _]].
    apply run_eol in Hv as [-> He].
    apply pieces_labels in Hus as (labels & -> & Hlab).
    exists labels, u2, w2. repeat split; auto.
    + intros ->. simpl in Hn. lia.
    + apply spec_top_label_iff. auto.
  - intros (labels & top & e & Heq & Hne & Hl & Htl & He).
    apply spec_top_label_iff in Htl as [Hall Hlen].
    exists e. apply in_run_seq. exists l. split; [apply in_run_bol; reflexivity|].
    apply in_run_seq. exists (top ++ e). split.
    + apply Hlabels. exists (concat (map (fun x => x ++ [dot]) labels)).
      split; [assumption|].
      exists (map (fun x => x ++ [dot]) labels). split; [reflexivity|]. split.
      * apply pieces_labels. exists labels. auto.
      * rewrite length_map. split; [|exact I].
        destruct labels; [congruence|simpl; lia].
    + apply in_run_seq. exists e. split.
      * apply Htop. exists top. split; [reflexivity|].
        apply rounds_one_of. unfold within. auto.
      * apply run_eol. auto.
Qed.

Lemma match_domain_regex s :
  bool_of_match (re_match domain_regex s) = true <-> accepted (chars s).
Proof.
  rewrite <- run_domain_regex. unfold re_match.
  destruct (run (length (chars s)) domain_regex (chars s)) as [|v l].
  - simpl. split; [discriminate|]. intros (v & []).
  - simpl. split; [|reflexivity]. intros _. exists v. left. reflexivity.
Qed.

Lemma validate_domain_true s :
  validate_domain s = true <->
  s <> "" /\ String.length s <= 253 /\ accepted (chars s).
Proof.
  unfold validate_domain.
  destruct (String.eqb_spec s "") as [->|Hne]; simpl.
  - split; [discriminate|]. intros [H _]. congruence.
  - destruct (Nat.ltb_spec 253 (String.length s)) as [Hlt|Hle].
    + split; [discriminate|]. intros (_ & H & _). lia.
    + rewrite match_domain_regex. intuition.
Qed.

(** ** Labels and dots *)

Lemma split_on_piece x rest :
  no_dot x -> split_on dot (x ++ dot :: rest) = x :: split_on dot rest.
Proof.
  induction 1 as [|c x Hc _ IH]; simpl.
  - reflexivity.
  - rewrite Hc, IH. reflexivity.
Qed.

Lemma split_on_last x : no_dot x -> split_on dot x = [x].
Proof.
  induction 1 as [|c x Hc _ IH]; simpl.
  - reflexivity.
  - rewrite Hc, IH. reflexivity.
Qed.

Lemma split_on_join labels top :
  Forall no_dot labels -> no_dot top ->
  split_on dot (concat (map (fun x => x ++ [dot]) labels) ++ top)
  = labels ++ [top].
Proof.
  intros Hl Ht. induction Hl as [|l labels Hl _ IH]; simpl.
  - apply split_on_last, Ht.
  - rewrite <- !app_assoc. simpl. rewrite split_on_piece by assumption.
    rewrite IH. reflexivity.
Qed.

Lemma split_on_nonempty sep l : split_on sep l <> [].
Proof.
  destruct l as [|c l]; simpl; [discriminate|].
  destruct (Ascii.eqb c sep); [discriminate|].
  destruct (split_on sep l); discriminate.
Qed.

Lemma join_split_on l :
  concat (map (fun x => x ++ [dot]) (removelast (split_on dot l)))
  ++ List.last (split_on dot l) [] = l.
Proof.
  induction l as [|c l IH]; simpl.
  - reflexivity.
  - pose proof (split_on_nonempty dot l) as Hne.
    destruct (split_on dot l) as [|p ps]; [congruence|].
    destruct (Ascii.eqb_spec c dot) as [->|Hc].
    + cbn [removelast List.last map concat] in *.
      simpl. f_equal. exact IH.
    + destruct ps as [|q ps].
      * simpl in *. congruence.
      * cbn [removelast List.last map concat] in *.
        rewrite <- IH. rewrite <- !app_assoc. reflexivity.
Qed.

Lemma label_no_dot l : spec_label l = true -> no_dot l.
Proof.
  intros H. apply spec_label_iff in H as (_ & Hall & _).
  unfold no_dot. induction l as [|c l IH]; constructor.
  - simpl in Hall. apply andb_prop in Hall as [Hc _].
    apply label_char_not_dot, Hc.
  - apply IH. simpl in Hall. apply andb_prop in Hall as [_ Hl]. exact Hl.
Qed.

Lemma alphas_no_dot l : forallb is_alpha l = true -> no_dot l.
Proof.
  unfold no_dot. induction l as [|c l IH]; intros Hall; constructor.
  - simpl in Hall. apply andb_prop in Hall as [Hc _]. apply alpha_not_dot, Hc.
  - apply IH. simpl in Hall. apply andb_prop in Hall as [_ Hl]. exact Hl.
Qed.

Lemma labels_no_dot labels :
  Forall (fun x => spec_label x = true) labels -> Forall no_dot labels.
Proof. induction 1; constructor; auto using label_no_dot. Qed.

Lemma forallb_Forall {A} (p : A -> bool) l :
  forallb p l = true <-> Forall (fun x => p x = true) l.
Proof.
  induction l as [|x l IH]; simpl.
  - split; auto.
  - rewrite andb_true_iff, IH. split.
    + intros [? ?]. constructor; assumption.
    + inversion 1; auto.
Qed.

(** The grammar of the specification, as a decomposition of the text. *)
Lemma spec_domain_grammar_iff s :
  spec_domain_grammar s = true <->
  exists labels top,
    chars s = concat (map (fun x => x ++ [dot]) labels) ++ top
    /\ labels <> []
    /\ Forall (fun x => spec_label x = true) labels
    /\ spec_top_label top = true.
Proof.
  unfold spec_domain_grammar, labels_of. split.
  - rewrite !andb_true_iff, Nat.leb_le, forallb_Forall.
    intros [[Hn Hl] Ht].
    exists (removelast (split_on dot (chars s))),
           (List.last (split_on dot (chars s)) []).
    repeat split; auto.
    + symmetry. apply join_split_on.
    + intros E. rewrite E in Hn. simpl in Hn. lia.
  - intros (labels & top & -> & Hne & Hl & Ht).
    rewrite split_on_join.
    + rewrite removelast_last, last_last, Ht, andb_true_r.
      apply andb_true_iff. split.
      * apply Nat.leb_le. destruct labels; [congruence|simpl; lia].
      * apply forallb_Forall, Hl.
    + apply labels_no_dot, Hl.
    + apply alphas_no_dot. apply spec_top_label_iff in Ht as [Ht _]. exact Ht.
Qed.

Lemma accepted_labels l :
  accepted l ->
  exists labels top e,
    split_on dot l = labels ++ [top ++ e]
    /\ Forall (fun x => spec_label x = true) labels
    /\ spec_top_label top = true /\ (e = [] \/ e = [newline]).
Proof.
  intros (labels & top & e & -> & _ & Hl & Ht & He).
  exists labels, top, e. repeat split; auto.
  apply split_on_join; [apply labels_no_dot, Hl|].
  apply Forall_app. split.
  - apply alphas_no_dot. apply spec_top_label_iff in Ht as [Ht _]. exact Ht.
  - destruct He as [->| ->]; repeat constructor.
Qed.

Lemma accepted_plain l :
  ends_with newline l = false ->
  accepted l <-> spec_domain_grammar (text l) = true.
Proof.
  intros Hnl. rewrite spec_domain_grammar_iff, chars_text. split.
  - intros (labels & top & e & -> & Hne & Hl & Ht & [->| ->]).
    + exists labels, top. rewrite app_nil_r. repeat split; auto.
    + rewrite !app_assoc, ends_with_snoc in Hnl. discriminate.
  - intros (labels & top & -> & Hne & Hl & Ht).
    exists labels, top, []. rewrite app_nil_r. repeat split; auto.
Qed.

Lemma accepted_newline g :
  accepted (g ++ [newline]) <-> spec_domain_grammar (text g) = true.
Proof.
  rewrite spec_domain_grammar_iff, chars_text. split.
  - intros (labels & top & e & Heq & Hne & Hl & Ht & [->| ->]).
    + exfalso. rewrite app_nil_r in Heq.
      apply spec_top_label_iff in Ht as [Hall Hlen].
      destruct top as [|c top] using rev_ind; [simpl in Hlen; lia|].
      rewrite app_assoc in Heq. apply app_inj_tail in Heq as [_ <-].
      rewrite forallb_app in Hall. apply andb_prop in Hall as [_ Hall].
      vm_compute in Hall. discriminate.
    + rewrite !app_assoc in Heq. apply app_inj_tail in Heq as [-> _].
      exists labels, top. repeat split; auto.
  - intros (labels & top & -> & Hne & Hl & Ht).
    exists labels, top, [newline]. rewrite <- app_assoc.
    repeat split; auto.
Qed.

Lemma grammar_nonempty s : spec_domain_grammar s = true -> s <> "".
Proof.
  intros H ->. vm_compute in H. discriminate.
Qed.

(** Every text the validator accepts: a text of the grammar of at most 253
    characters, or such a text with one newline after it. *)
Lemma validate_domain_characterized s :
  validate_domain s = true <->
  String.length s <= 253 /\
  (spec_domain_grammar s = true \/
   exists g, s = text (chars g ++ [newline]) /\ spec_domain_grammar g = true).
Proof.
  rewrite validate_domain_true. split.
  - intros (_ & Hlen & Hacc). split; [assumption|].
    destruct (ends_with newline (chars s)) eqn:E.
    + right. unfold ends_with in E.
      destruct (rev (chars s)) as [|c r] eqn:Hr; [discriminate|].
      simpl in E. apply Ascii.eqb_eq in E. subst c.
      assert (chars s = rev r ++ [newline]) as Hs.
      { rewrite <- (rev_involutive (chars s)), Hr. reflexivity. }
      exists (text (rev r)). rewrite chars_text, <- Hs, text_chars.
      split; [reflexivity|].
      rewrite Hs in Hacc. apply accepted_newline in Hacc. exact Hacc.
    + left. apply accepted_plain in Hacc; [|assumption].
      rewrite text_chars in Hacc. exact Hacc.
  - intros (Hlen & [Hg|(g & -> & Hg)]).
    + split; [apply grammar_nonempty, Hg|]. split; [assumption|].
      destruct (ends_with newline (chars s)) eqn:E.
      * exfalso. apply spec_domain_grammar_iff in Hg
          as (labels & top & Heq & _ & _ & Ht).
        rewrite Heq in E. apply spec_top_label_iff in Ht as [Hall Hn].
        destruct top as [|c top] using rev_ind; [simpl in Hn; lia|].
        rewrite app_assoc, ends_with_snoc in E. apply Ascii.eqb_eq in E.
        subst c. rewrite forallb_app in Hall.
        apply andb_prop in Hall as [_ Hall]. vm_compute in Hall. discriminate.
      * apply accepted_plain; [assumption|]. rewrite text_chars. exact Hg.
    + split.
      * intros E. apply (f_equal chars) in E. rewrite chars_text in E.
        destruct (chars g); discriminate.
      * split; [assumption|]. rewrite chars_text. apply accepted_newline.
        rewrite text_chars. exact Hg.
Qed.

(** ** Texts the validator rejects *)

Lemma consecutive_dots_empty l :
  consecutive_dots l = true ->
  existsb is_empty (tl (split_on dot l)) = true.
Proof.
  induction l as [|c1 l IH]; [discriminate|].
  destruct l as [|c2 l]; [discriminate|].
  change (consecutive_dots (c1 :: c2 :: l))
    with ((Ascii.eqb c1 dot && Ascii.eqb c2 dot) || consecutive_dots (c2 :: l)).
  intros H. apply orb_prop in H as [H|H].
  - apply andb_prop in H as [H1 H2].
    simpl. rewrite H1, H2. reflexivity.
  - specialize (IH H). remember (c2 :: l) as rest.
    simpl. pose proof (split_on_nonempty dot rest) as Hne.
    destruct (split_on dot rest) as [|p ps]; [congruence|].
    destruct (Ascii.eqb c1 dot); simpl in *.
    + rewrite IH. apply orb_true_r.
    + exact IH.
Qed.

Lemma existsb_tl {A} (p : A -> bool) l :
  existsb p (tl l) = true -> existsb p l = true.
Proof. destruct l; simpl; [auto|]. intros ->. apply orb_true_r. Qed.

Lemma label_well_formed l :
  spec_label l = true ->
  is_empty l = false /\ starts_with hyphen l = false
  /\ ends_with hyphen l = false.
Proof.
  intros H. apply spec_label_iff in H as ([Hlo _] & _ & Hs & He).
  destruct l; [simpl in Hlo; lia|]. auto.
Qed.

Lemma top_well_formed top e :
  spec_top_label top = true -> e = [] \/ e = [newline] ->
  is_empty (top ++ e) = false /\ starts_with hyphen (top ++ e) = false
  /\ ends_with hyphen (top ++ e) = false.
Proof.
  intros Ht He. apply spec_top_label_iff in Ht as [Hall Hlen].
  destruct top as [|c top]; [simpl in Hlen; lia|].
  split; [reflexivity|]. split.
  - simpl in *. apply andb_prop in Hall as [Hc _].
    apply alnum_not_hyphen, alpha_alnum, Hc.
  - destruct He as [->| ->].
    + rewrite app_nil_r.
      destruct (@exists_last _ (c :: top)) as (r & d & E); [discriminate|].
      rewrite E in *.
      rewrite ends_with_snoc. rewrite forallb_app in Hall.
      apply andb_prop in Hall as [_ Hd]. simpl in Hd.
      rewrite andb_true_r in Hd. apply alnum_not_hyphen, alpha_alnum, Hd.
    + rewrite ends_with_snoc. reflexivity.
Qed.

Lemma validate_domain_labels s :
  validate_domain s = true ->
  has_empty_label s = false /\ has_consecutive_dots s = false
  /\ has_hyphen_at_label_boundary s = false.
Proof.
  intros H. apply validate_domain_true in H as (_ & _ & Hacc).
  apply accepted_labels in Hacc as (labels & top & e & Hsplit & Hl & Ht & He).
  destruct (top_well_formed top e Ht He) as (Te & Ts & Tn).
  assert (existsb is_empty (split_on dot (chars s)) = false) as Hempty.
  { rewrite Hsplit, existsb_app. simpl. rewrite Te, orb_false_r.
    clear Hsplit. induction Hl as [|l labels Hl _ IH]; [reflexivity|].
    simpl. destruct (label_well_formed l Hl) as (-> & _). exact IH. }
  split; [exact Hempty|]. split.
  - unfold has_consecutive_dots.
    destruct (consecutive_dots (chars s)) eqn:E; [|reflexivity].
    apply consecutive_dots_empty, existsb_tl in E. congruence.
  - unfold has_hyphen_at_label_boundary, labels_of.
    rewrite Hsplit, existsb_app. simpl. rewrite Ts, Tn. simpl.
    rewrite orb_false_r.
    clear Hsplit. induction Hl as [|l labels Hl _ IH]; [reflexivity|].
    simpl. destruct (label_well_formed l Hl) as (_ & -> & ->). exact IH.
Qed.

Lemma validate_domain_bounds s :
  s = "" \/ 253 < String.length s -> validate_domain s = false.
Proof.
  unfold validate_domain. intros [->|H]; [reflexivity|].
  apply Nat.ltb_lt in H. rewrite H, orb_true_r. reflexivity.
Qed.

(** ** [strip] *)

Lemma lstrip_spec c l :
  exists before,
    l = before ++ lstrip c l /\ Forall (fun x => x = c) before
    /\ starts_with c (lstrip c l) = false.
Proof.
  induction l as [|x l (before & Heq & Hall & Hs)]; simpl.
  - exists []. auto.
  - destruct (Ascii.eqb_spec x c) as [->|Hx].
    + exists (c :: before). simpl. rewrite <- Heq. auto.
    + exists []. simpl. repeat split; auto.
      apply Ascii.eqb_neq, Hx.
Qed.

Lemma rstrip_spec c l :
  exists after,
    l = rstrip c l ++ after /\ Forall (fun x => x = c) after
    /\ ends_with c (rstrip c l) = false.
Proof.
  unfold rstrip, ends_with. rewrite rev_involutive.
  destruct (lstrip_spec c (rev l)) as (before & Heq & Hall & Hs).
  exists (rev before). repeat split; auto.
  - rewrite <- rev_app_distr, <- Heq, rev_involutive. reflexivity.
  - apply List.Forall_rev, Hall.
Qed.

Lemma strip_spec c s : stripped_of c s (strip c s).
Proof.
  unfold stripped_of, strip. rewrite chars_text.
  destruct (lstrip_spec c (chars s)) as (before & Heq & Hb & Hs).
  destruct (rstrip_spec c (lstrip c (chars s))) as (after & Heq' & Ha & He).
  exists before, after. repeat split; auto.
  - rewrite <- Heq'. exact Heq.
  - destruct (rstrip c (lstrip c (chars s))) as [|x r] eqn:E; [reflexivity|].
    rewrite Heq' in Hs. exact Hs.
Qed.

(** ** Address literals *)

Lemma alpha_not_digit c : is_alpha c = true -> is_digit c = false.
Proof.
  unfold is_alpha, is_lower, is_upper, is_digit, between.
  change (code "a") with 97. change (code "z") with 122.
  change (code "A") with 65. change (code "Z") with 90.
  change (code "0") with 48. change (code "9") with 57.
  intros H. apply orb_prop in H.
  apply andb_false_iff. rewrite !Nat.leb_gt.
  destruct H as [H|H]; apply andb_prop in H as [H1 H2];
    apply Nat.leb_le in H1, H2; lia.
Qed.

Lemma label_char_not_colon c :
  is_label_char c = true -> Ascii.eqb c ":" = false.
Proof.
  intros H. destruct (Ascii.eqb_spec c ":") as [->|]; [|reflexivity].
  vm_compute in H. discriminate.
Qed.

(** No accepted text holds a colon or ends with a digit: the validator
    rejects every IPv6 and every dotted-quad IPv4 literal. *)
Lemma validate_domain_no_address s :
  validate_domain s = true ->
  existsb (fun c => Ascii.eqb c ":") (chars s) = false
  /\ (forall c, ends_with c (chars s) = true -> is_digit c = false).
Proof.
  intros H. apply validate_domain_true in H as (_ & _ & Hacc).
  destruct Hacc as (labels & top & e & -> & _ & Hl & Ht & He).
  apply spec_top_label_iff in Ht as [Hall Hlen].
  split.
  - rewrite !existsb_app.
    assert (existsb (fun c => Ascii.eqb c ":") e = false) as ->
      by (destruct He as [->| ->]; reflexivity).
    assert (existsb (fun c => Ascii.eqb c ":") top = false) as ->.
    { clear Hlen. induction top as [|c top IH]; [reflexivity|].
      simpl in *. apply andb_prop in Hall as [Hc Hall].
      rewrite (label_char_not_colon c), IH; auto.
      apply alnum_label_char, alpha_alnum, Hc. }
    rewrite !orb_false_r.
    induction Hl as [|l labels Hl _ IH]; [reflexivity|].
    simpl. rewrite !existsb_app, IH. simpl. rewrite !orb_false_r.
    apply spec_label_iff in Hl as (_ & Hchars & _).
    clear -Hchars. induction l as [|c l IH]; [reflexivity|].
    simpl in *. apply andb_prop in Hchars as [Hc Hchars].
    rewrite (label_char_not_colon c Hc), IH; auto.
  - intros c Hc. destruct He as [->| ->].
    + rewrite app_nil_r in Hc.
      destruct (@exists_last _ top) as (r & d & ->);
        [destruct top; [simpl in Hlen; lia|discriminate]|].
      rewrite app_assoc, ends_with_snoc in Hc. apply Ascii.eqb_eq in Hc.
      subst d. rewrite forallb_app in Hall.
      apply andb_prop in Hall as [_ Hd]. simpl in Hd.
      rewrite andb_true_r in Hd. apply alpha_not_digit, Hd.
    + rewrite !app_assoc, ends_with_snoc in Hc. apply Ascii.eqb_eq in Hc.
      subst c. reflexivity.
Qed.

(** ** The dictionaries *)

Section Dictionaries.

Variables (error domain record_type : string) (results : list record_val).

Lemma failure_success :
  failure error domain record_type !! "success" = Some (VBool false).
Proof. vm_compute. reflexivity. Qed.

Lemma failure_error :
  failure error domain record_type !! "error" = Some (VStr error).
Proof. vm_compute. reflexivity. Qed.

Lemma failure_domain :
  failure error domain record_type !! "domain" = Some (VStr domain).
Proof. vm_compute. reflexivity. Qed.

Lemma failure_record_type :
  failure error domain record_type !! "record_type" = Some (VStr record_type).
Proof. vm_compute. reflexivity. Qed.

Lemma failure_records : failure error domain record_type !! "records" = None.
Proof. vm_compute. reflexivity. Qed.

Lemma failure_count : failure error domain record_type !! "count" = None.
Proof. vm_compute. reflexivity. Qed.

Lemma success_success :
  success domain record_type results !! "success" = Some (VBool true).
Proof. unfold success, py_dict. simpl. by simplify_map_eq. Qed.

Lemma success_domain :
  success domain record_type results !! "domain" = Some (VStr domain).
Proof. unfold success, py_dict. simpl. by simplify_map_eq. Qed.

Lemma success_record_type :
  success domain record_type results !! "record_type"
  = Some (VStr record_type).
Proof. unfold success, py_dict. simpl. by simplify_map_eq. Qed.

Lemma success_records :
  success domain record_type results !! "records" = Some (VList results).
Proof. unfold success, py_dict. simpl. by simplify_map_eq. Qed.

Lemma success_count :
  success domain record_type results !! "count"
  = Some (VInt (Z.of_nat (length results))).
Proof. unfold success, py_dict. simpl. by simplify_map_eq. Qed.

Lemma success_error : success domain record_type results !! "error" = None.
Proof. unfold success, py_dict. simpl. by simplify_map_eq. Qed.

End Dictionaries.

(** ** The blocks of [dns_lookup] *)

Section Blocks.

Context {W : Type} (lib : library W).

Lemma isinstance_Exception e : isinstance e Exception = true.
Proof. destruct e as [[] ?]; reflexivity. Qed.

Lemma dns_lookup_invalid domain record_type st :
  validate_domain domain = false ->
  dns_lookup lib domain record_type st
  = (inr (failure "Invalid domain format" domain record_type), st).
Proof. unfold dns_lookup. intros ->. reflexivity. Qed.

Lemma dns_lookup_valid domain record_type st :
  validate_domain domain = true ->
  dns_lookup lib domain record_type st
  = match reverse_block lib domain record_type st with
    | (inr (Return r), st') => (inr r, st')
    | (inr (Continue qname), st') => query_block lib qname record_type st'
    | (inl e, st') => (inl e, st')
    end.
Proof.
  unfold dns_lookup, bind. intros ->. simpl.
  destruct (reverse_block lib domain record_type st) as [[e|[r|q]] st'];
    reflexivity.
Qed.

Lemma reverse_block_spec domain record_type st :
  reverse_block lib domain record_type st
  = if String.eqb (upper record_type) "PTR" then
      match lib_from_address lib domain with
      | inr reversed_name =>
          (inr (Continue reversed_name), logged st (FromAddress domain))
      | inl _ =>
          (inr (Return (failure "Invalid IP address for PTR lookup"
                                domain record_type)),
           logged st (FromAddress domain))
      end
    else (inr (Continue domain), st).
Proof.
  unfold reverse_block.
  destruct (String.eqb (upper record_type) "PTR"); [|reflexivity].
  unfold try_except, bind, from_address, logged. simpl.
  destruct (lib_from_address lib domain) as [e|n]; [|reflexivity].
  simpl. rewrite isinstance_Exception. reflexivity.
Qed.

Lemma for_answers_ok record_type answers records results (st : state W) :
  Forall2 (fun rdata record => record_of record_type rdata = inr record)
          answers records ->
  for_answers record_type answers results st = (inr (results ++ records), st).
Proof.
  intros H. revert results.
  induction H as [|rd rec answers records Hrd _ IH]; intros results; simpl.
  - rewrite app_nil_r. reflexivity.
  - unfold bind, lift. rewrite Hrd. rewrite IH, <- app_assoc. reflexivity.
Qed.

Lemma record_of_raises record_type rdata e :
  record_of record_type rdata = inl e -> exc_type e = AttributeError.
Proof.
  unfold record_of. intros E.
  repeat match type of E with
         | (if ?c then _ else _) = _ => destruct c
         end; try discriminate;
    unfold get_preference, get_exchange, get_mname, get_rname,
      get_serial, get_refresh, get_retry, get_expire, get_minimum,
      get_soa in E;
    destruct (rd_fields rdata); simpl in E; try discriminate;
    injection E as <-; reflexivity.
Qed.

(** The loop neither reads nor changes the state: it returns the records
    of all the answers, or raises what the first answer without the
    attributes read raises. *)
Lemma for_answers_pure record_type answers results :
  exists res,
    (forall st : state W,
        for_answers record_type answers results st = (res, st))
    /\ ((exists records,
            Forall2 (fun rdata record =>
                       record_of record_type rdata = inr record)
                    answers records
            /\ res = inr (results ++ records))
        \/ (exists rdata e,
               In rdata answers /\ record_of record_type rdata = inl e
               /\ res = inl e)).
Proof.
  revert results. induction answers as [|rd answers IH]; intros results.
  - exists (inr results). split; [reflexivity|].
    left. exists []. rewrite app_nil_r. split; [constructor|reflexivity].
  - destruct (record_of record_type rd) as [e|rec] eqn:E.
    + exists (inl e). split.
      * intros st. simpl. unfold bind, lift. rewrite E. reflexivity.
      * right. exists rd, e. simpl. auto.
    + destruct (IH (results ++ [rec])) as (res & Hres & Hcases).
      exists res. split.
      * intros st. simpl. unfold bind, lift. rewrite E. apply Hres.
      * destruct Hcases as [(records & HF & ->)|(rd' & e & Hin & He & ->)].
        -- left. exists (rec :: records).
           split; [constructor; assumption|].
           rewrite <- app_assoc. reflexivity.
        -- right. exists rd', e. simpl. auto.
Qed.

Lemma dispatch_query_handlers domain record_type e (st : state W) :
  dispatch e
    [(NXDOMAIN, fun _ =>
        ret (failure "Domain does not exist" domain record_type));
     (NoAnswer, fun _ =>
        ret (failure ("No " +:+ record_type +:+ " records found")
                     domain record_type));
     (Timeout, fun _ =>
        ret (failure "DNS query timed out" domain record_type));
     (DNSException, fun e =>
        ret (failure ("DNS error: " +:+ exc_str e) domain record_type));
     (Exception, fun e =>
        ret (failure ("Unexpected error: " +:+ exc_str e)
                     domain record_type))] st
  = (inr (failure (error_message record_type e) domain record_type), st).
Proof. destruct e as [[] msg]; reflexivity. Qed.

Lemma query_block_raised qname record_type st e w :
  lib_resolve lib (backend st) qname record_type = (inl e, w) ->
  query_block lib qname record_type st
  = (inr (failure (error_message record_type e) qname record_type),
     queried st w qname record_type).
Proof.
  intros H. unfold query_block, try_except, bind, resolve. rewrite H.
  apply dispatch_query_handlers.
Qed.

Lemma query_block_answered qname record_type st answers w records :
  lib_resolve lib (backend st) qname record_type = (inr answers, w) ->
  Forall2 (fun rdata record => record_of record_type rdata = inr record)
          answers records ->
  query_block lib qname record_type st
  = (inr (success qname record_type records),
     queried st w qname record_type).
Proof.
  intros H HF. unfold query_block, try_except, bind, resolve. rewrite H.
  rewrite (for_answers_ok _ _ _ _ _ HF). reflexivity.
Qed.

(** Every outcome of the query block, for a back-end [b] and whatever the
    call log: the resolver raises, or it answers and all the answers have
    the attributes read, or one of them has not. *)
Lemma query_block_cases qname record_type b :
  exists r w,
    (forall st, backend st = b ->
        query_block lib qname record_type st
        = (inr r, queried st w qname record_type))
    /\ query_outcome lib b qname record_type r w.
Proof.
  destruct (lib_resolve lib b qname record_type) as [[e|answers] w] eqn:H.
  - exists (failure (error_message record_type e) qname record_type), w.
    split; [|left; unfold query_outcome; eauto 10].
    intros st <-. apply query_block_raised, H.
  - destruct (for_answers_pure record_type answers [])
      as (res & Hres & [(records & HF & ->)|(rd & e & Hin & He & ->)]).
    + exists (success qname record_type records), w.
      split; [|right; left; unfold query_outcome; eauto 10].
      intros st <-. eapply query_block_answered; eassumption.
    + exists (failure ("Unexpected error: " +:+ exc_str e) qname record_type),
             w.
      split; [|right; right; exists answers, rd, e; auto].
      intros st <-.
      unfold query_block, try_except, bind, resolve. rewrite H, Hres.
      rewrite dispatch_query_handlers. unfold error_message.
      rewrite (record_of_raises _ _ _ He). reflexivity.
Qed.

Lemma state_eta (st : state W) :
  {| backend := backend st; calls := calls st ++ [] |} = st.
Proof. destruct st. simpl. rewrite app_nil_r. reflexivity. Qed.

Lemma dns_lookup_queries domain record_type qname st :
  validate_domain domain = true ->
  query_name lib domain record_type = Some qname ->
  dns_lookup lib domain record_type st
  = query_block lib qname record_type
      {| backend := backend st;
         calls := calls st ++ reverse_calls domain record_type |}.
Proof.
  intros Hv Hq. rewrite dns_lookup_valid, reverse_block_spec by exact Hv.
  unfold query_name, reverse_calls in *.
  destruct (String.eqb (upper record_type) "PTR").
  - destruct (lib_from_address lib domain); [discriminate|].
    injection Hq as ->. reflexivity.
  - injection Hq as ->. rewrite state_eta. reflexivity.
Qed.

Lemma dns_lookup_raised domain record_type qname st e w :
  validate_domain domain = true ->
  query_name lib domain record_type = Some qname ->
  lib_resolve lib (backend st) qname record_type = (inl e, w) ->
  fst (dns_lookup lib domain record_type st)
  = inr (failure (error_message record_type e) qname record_type).
Proof.
  intros Hv Hq He. rewrite (dns_lookup_queries _ _ _ _ Hv Hq).
  erewrite query_block_raised; [reflexivity|exact He].
Qed.

Lemma dns_lookup_answered domain record_type qname st answers w records :
  validate_domain domain = true ->
  query_name lib domain record_type = Some qname ->
  lib_resolve lib (backend st) qname record_type = (inr answers, w) ->
  Forall2 (fun rdata record => record_of record_type rdata = inr record)
          answers records ->
  fst (dns_lookup lib domain record_type st)
  = inr (success qname record_type records).
Proof.
  intros Hv Hq Ha HF. rewrite (dns_lookup_queries _ _ _ _ Hv Hq).
  erewrite query_block_answered; [reflexivity|exact Ha|exact HF].
Qed.

(** Every outcome of [dns_lookup], for a back-end [b] and whatever the call
    log: the result, the back-end left and the calls made. *)
Lemma dns_lookup_cases domain record_type b :
  exists r w cs,
    (forall st, backend st = b ->
        dns_lookup lib domain record_type st
        = (inr r, {| backend := w; calls := calls st ++ cs |}))
    /\ ((validate_domain domain = false
         /\ r = failure "Invalid domain format" domain record_type
         /\ w = b /\ cs = [])
        \/ (validate_domain domain = true
            /\ query_name lib domain record_type = None
            /\ r = failure "Invalid IP address for PTR lookup"
                           domain record_type
            /\ w = b /\ cs = [FromAddress domain])
        \/ (validate_domain domain = true
            /\ exists qname,
                query_name lib domain record_type = Some qname
                /\ cs = reverse_calls domain record_type
                        ++ [Resolve qname record_type]
                /\ query_outcome lib b qname record_type r w)).
Proof.
  destruct (validate_domain domain) eqn:Hv.
  - unfold query_name, reverse_calls.
    destruct (String.eqb (upper record_type) "PTR") eqn:Hptr.
    + destruct (lib_from_address lib domain) as [e|qname] eqn:Hrev.
      * exists (failure "Invalid IP address for PTR lookup" domain record_type),
               b, [FromAddress domain].
        split; [|right; left; auto].
        intros st <-. rewrite dns_lookup_valid, reverse_block_spec by exact Hv.
        rewrite Hptr, Hrev. reflexivity.
      * destruct (query_block_cases qname record_type b) as (r & w & Hq & Hr).
        exists r, w, ([FromAddress domain] ++ [Resolve qname record_type]).
        split; [|right; right; split; [reflexivity|]; exists qname; auto].
        intros st <-. rewrite dns_lookup_valid, reverse_block_spec by exact Hv.
        rewrite Hptr, Hrev. rewrite Hq by reflexivity.
        unfold queried, logged. simpl. rewrite <- app_assoc. reflexivity.
    + destruct (query_block_cases domain record_type b) as (r & w & Hq & Hr).
      exists r, w, ([] ++ [Resolve domain record_type]).
      split; [|right; right; split; [reflexivity|]; exists domain; auto].
      intros st <-. rewrite dns_lookup_valid, reverse_block_spec by exact Hv.
      rewrite Hptr. rewrite Hq by reflexivity. reflexivity.
  - exists (failure "Invalid domain format" domain record_type), b, [].
    split; [|left; auto].
    intros st <-. rewrite dns_lookup_invalid by exact Hv.
    rewrite state_eta. reflexivity.
Qed.

(** A PTR lookup never gets to convert an address: the validator has
    rejected it before. *)
Lemma dns_lookup_address domain record_type st c :
  existsb (fun x => Ascii.eqb x ":") (chars domain) = true
  \/ (ends_with c (chars domain) = true /\ is_digit c = true) ->
  dns_lookup lib domain record_type st
  = (inr (failure "Invalid domain format" domain record_type), st).
Proof.
  intros H. apply dns_lookup_invalid.
  destruct (validate_domain domain) eqn:Hv; [|reflexivity].
  apply validate_domain_no_address in Hv as [Hcolon Hdigit].
  destruct H as [H|[H1 H2]]; [congruence|].
  rewrite (Hdigit c H1) in H2. discriminate.
Qed.

End Blocks.

(** ** The validator and the grammar *)

(** C2, as the code has it: the grammar of the specification is decided by
    the validator on the texts of at most 253 characters that do not end
    with a newline, and every text with an empty label, two dots in a row
    or a hyphen at the start or the end of a label is rejected. *)
Theorem validate_domain_grammar (s : string) :
  (ends_with_newline s = false ->
   (validate_domain s = true <->
    String.length s <= 253 /\ spec_domain_grammar s = true))
  /\ (has_empty_label s = true \/ has_consecutive_dots s = true
      \/ has_hyphen_at_label_boundary s = true ->
      validate_domain s = false).
Proof.
  split.
  - intros Hnl. rewrite validate_domain_characterized. split.
    + intros (Hlen & [Hg|(g & -> & Hg)]); [auto|].
      unfold ends_with_newline in Hnl.
      rewrite chars_text, ends_with_snoc in Hnl. discriminate.
    + intros [Hlen Hg]. auto.
  - intros H. destruct (validate_domain s) eqn:E; [|reflexivity].
    apply validate_domain_labels in E as (E1 & E2 & E3).
    destruct H as [H|[H|H]]; congruence.
Qed.

Lemma validate_domain_grammar_witness :
  validate_domain "example.com" = true
  /\ validate_domain "a..com" = false.
Proof.
  split.
  - apply (proj1 (validate_domain_grammar "example.com")).
    + reflexivity.
    + split; [vm_compute; lia|reflexivity].
  - apply (proj2 (validate_domain_grammar "a..com")).
    left. reflexivity.
Defined.

(** C2, as stated, fails twice: a text of the grammar with 254 characters
    is rejected, and a text of the grammar followed by a newline, which is
    not of the grammar, is accepted. *)
Lemma validate_domain_not_the_grammar :
  (spec_domain_grammar Fixture.long_domain = true
   /\ validate_domain Fixture.long_domain = false)
  /\ (spec_domain_grammar Fixture.newline_domain = false
      /\ validate_domain Fixture.newline_domain = true).
Proof. vm_compute. auto. Qed.

(** C3: the empty string and every string longer than 253 characters are
    rejected. *)
Theorem validate_domain_rejects_empty_and_long (s : string) :
  s = "" \/ 253 < String.length s -> validate_domain s = false.
Proof. apply validate_domain_bounds. Qed.

Lemma validate_domain_rejects_empty_and_long_witness :
  253 < String.length Fixture.long_domain
  /\ validate_domain Fixture.long_domain = false.
Proof.
  assert (253 < String.length Fixture.long_domain) as H
    by (vm_compute; lia).
  split; [exact H|].
  apply (validate_domain_rejects_empty_and_long Fixture.long_domain).
  right. exact H.
Defined.

(** ** The lookup *)

Section LookupClaims.

Context {W : Type} (lib : library W).

(** C1, the code at the address 8.8.8.8: the validator runs before the
    record type is looked at and rejects the address, so the PTR lookup
    returns the failure "Invalid domain format" with the address as the
    domain, and neither converts the address nor queries the resolver. *)
Theorem ptr_lookup_of_address_rejected (st : state W) :
  dns_lookup lib "8.8.8.8" "PTR" st
  = (inr (failure "Invalid domain format" "8.8.8.8" "PTR"), st).
Proof. apply dns_lookup_invalid. vm_compute. reflexivity. Qed.

(** C4: for a record type other than PTR and a domain that the validator
    rejects, the lookup returns the failure "Invalid domain format" and
    calls nothing: the back-end and the call log are as before. *)
Theorem dns_lookup_invalid_domain (domain record_type : string)
    (st : state W) :
  upper record_type <> "PTR" ->
  validate_domain domain = false ->
  exists st',
    dns_lookup lib domain record_type st
    = (inr (failure "Invalid domain format" domain record_type), st')
    /\ backend st' = backend st /\ calls st' = calls st
    /\ filter (fun c => is_query c = true) (calls st')
       = filter (fun c => is_query c = true) (calls st).
Proof.
  intros _ Hv. exists st. rewrite dns_lookup_invalid by exact Hv. auto.
Qed.

(** C5: the lookup always returns a dictionary, never an exception; and
    when the resolver raises, the dictionary is the failure whose message
    goes by the class of the exception. *)
Theorem dns_lookup_error_mapping (domain record_type : string)
    (st : state W) :
  (exists r st', dns_lookup lib domain record_type st = (inr r, st'))
  /\ (forall qname e w,
         validate_domain domain = true ->
         query_name lib domain record_type = Some qname ->
         lib_resolve lib (backend st) qname record_type = (inl e, w) ->
         exists error,
           fst (dns_lookup lib domain record_type st)
           = inr (failure error qname record_type)
           /\ (isinstance e NXDOMAIN = true ->
               error = "Domain does not exist")
           /\ (isinstance e NoAnswer = true ->
               error = "No " +:+ record_type +:+ " records found")
           /\ (isinstance e Timeout = true ->
               error = "DNS query timed out")
           /\ (isinstance e DNSException = true ->
               isinstance e NXDOMAIN = false ->
               isinstance e NoAnswer = false ->
               isinstance e Timeout = false ->
               error = "DNS error: " +:+ exc_str e)
           /\ (isinstance e DNSException = false ->
               error = "Unexpected error: " +:+ exc_str e)).
Proof.
  split.
  - destruct (dns_lookup_cases lib domain record_type (backend st))
      as (r & w & cs & Hrun & _).
    rewrite (Hrun st eq_refl). eauto.
  - intros qname e w Hv Hq He.
    exists (error_message record_type e).
    split; [eapply dns_lookup_raised; eassumption|].
    clear. unfold error_message. destruct e as [[] msg];
      repeat split; intros; simpl in *; try reflexivity; discriminate.
Qed.

(** C6: when the resolver returns N >= 1 answers, the lookup returns the
    success whose records are the records of the answers, one for one and
    in their order, and whose count is N; and with a resolver that reports
    an empty answer set by raising, no success has an empty record list. *)
Theorem dns_lookup_success_records (domain record_type : string)
    (st : state W) :
  (forall qname answers w records,
      validate_domain domain = true ->
      query_name lib domain record_type = Some qname ->
      lib_resolve lib (backend st) qname record_type = (inr answers, w) ->
      1 <= length answers ->
      Forall2 (fun rdata record => record_of record_type rdata = inr record)
              answers records ->
      exists r,
        fst (dns_lookup lib domain record_type st) = inr r
        /\ r !! "success" = Some (VBool true)
        /\ r !! "records" = Some (VList records)
        /\ r !! "count" = Some (VInt (Z.of_nat (length answers))))
  /\ (signals_no_answer lib ->
      forall r,
        fst (dns_lookup lib domain record_type st) = inr r ->
        r !! "success" = Some (VBool true) ->
        exists records,
          r !! "records" = Some (VList records) /\ records <> []
          /\ r !! "count" = Some (VInt (Z.of_nat (length records)))).
Proof.
  split.
  - intros qname answers w records Hv Hq Ha _ HF.
    exists (success qname record_type records).
    split; [eapply dns_lookup_answered; eassumption|].
    rewrite success_success, success_records, success_count.
    rewrite (Forall2_length _ _ _ HF). auto.
  - destruct (dns_lookup_cases lib domain record_type (backend st))
      as (r & w & cs & Hrun & Hcases).
    rewrite (Hrun st eq_refl). simpl.
    intros Hsig r' Hr' Hs. injection Hr' as <-.
    destruct Hcases
      as [(_ & -> & _)|[(_ & _ & -> & _)|(_ & q & _ & _ & Hout)]];
      try (rewrite failure_success in Hs; discriminate).
    destruct Hout
      as [(e & _ & ->)|[(a & rs & Ha & HF & ->)|(a & rd & e & _ & _ & _ & ->)]];
      try (rewrite failure_success in Hs; discriminate).
    exists rs. rewrite success_records, success_count.
    repeat split. intros ->. inversion HF; subst.
    eapply Hsig; eauto.
Qed.

(** C7: the MX lookup of example.com, with a resolver that returns one
    answer of preference 10 and exchange mail.example.com, returns the
    success with that one record and the count 1. *)
Theorem dns_lookup_mx_example (st : state W) (w : W) (rdata : rdata) :
  lib_resolve lib (backend st) "example.com" "MX" = (inr [rdata], w) ->
  rd_fields rdata = MXFields 10 "mail.example.com" ->
  fst (dns_lookup lib "example.com" "MX" st)
  = inr (py_dict
           [("success", VBool true);
            ("domain", VStr "example.com");
            ("record_type", VStr "MX");
            ("records",
             VList [RDict (py_dict [("preference", AInt 10);
                                    ("exchange", AStr "mail.example.com")])]);
            ("count", VInt 1)]).
Proof.
  intros Ha Hrd.
  rewrite (dns_lookup_answered lib "example.com" "MX" "example.com" st
             [rdata] w
             [RDict (py_dict [("preference", AInt 10);
                              ("exchange", AStr "mail.example.com")])]);
    [reflexivity|reflexivity|reflexivity|exact Ha|].
  constructor; [|constructor].
  unfold record_of, get_preference, get_exchange. rewrite Hrd. reflexivity.
Qed.

(** C8: a TXT lookup returns, for each answer of the resolver and in their
    order, the text of the answer without the quote characters around
    it. *)
Theorem dns_lookup_txt_stripped (domain record_type : string)
    (st : state W) (answers : list rdata) (w : W) :
  validate_domain domain = true ->
  upper record_type = "TXT" ->
  lib_resolve lib (backend st) domain record_type = (inr answers, w) ->
  exists records,
    fst (dns_lookup lib domain record_type st)
    = inr (success domain record_type records)
    /\ records = map (fun rdata => RStr (strip dquote (rd_text rdata))) answers
    /\ Forall2 (fun rdata record =>
                  exists s, record = RStr s
                            /\ stripped_of dquote (rd_text rdata) s)
               answers records.
Proof.
  intros Hv Ht Ha.
  assert (query_name lib domain record_type = Some domain) as Hq.
  { unfold query_name. rewrite Ht. reflexivity. }
  exists (map (fun rdata => RStr (strip dquote (rd_text rdata))) answers).
  split; [|split; [reflexivity|]].
  - eapply dns_lookup_answered; [exact Hv|exact Hq|exact Ha|].
    clear Ha. induction answers as [|rd answers IH]; constructor; auto.
    unfold record_of. rewrite Ht. reflexivity.
  - clear Ha. induction answers as [|rd answers IH]; constructor; auto.
    eexists. split; [reflexivity|]. apply strip_spec.
Qed.

(** C9: a second lookup with the same arguments, run after the first with
    the back-end as the first one found it, returns the same dictionary:
    the same outcome and the same records. *)
Theorem dns_lookup_idempotent (domain record_type : string) (st : state W) :
  let first := dns_lookup lib domain record_type st in
  backend (snd first) = backend st ->
  let second := dns_lookup lib domain record_type (snd first) in
  exists r,
    fst first = inr r /\ fst second = inr r
    /\ fst second = fst first.
Proof.
  intros first Hb second. subst first second.
  destruct (dns_lookup_cases lib domain record_type (backend st))
    as (r & w & cs & Hrun & _).
  rewrite (Hrun _ Hb). rewrite (Hrun st eq_refl). simpl. eauto.
Qed.

(** C10: what every returned dictionary holds.  The record type is the
    argument of the caller as given; the domain is the reverse-lookup name
    on the PTR path where the conversion succeeded, and the domain of the
    caller on every other path; a failure has an error and neither records
    nor a count. *)
Theorem dns_lookup_result_keys (domain record_type : string)
    (st : state W) :
  exists r st',
    dns_lookup lib domain record_type st = (inr r, st')
    /\ r !! "record_type" = Some (VStr record_type)
    /\ (forall reversed_name,
           validate_domain domain = true ->
           upper record_type = "PTR" ->
           lib_from_address lib domain = inr reversed_name ->
           r !! "domain" = Some (VStr reversed_name))
    /\ (validate_domain domain = false \/ upper record_type <> "PTR"
        \/ (exists e, lib_from_address lib domain = inl e) ->
        r !! "domain" = Some (VStr domain))
    /\ (r !! "success" = Some (VBool true)
        \/ r !! "success" = Some (VBool false))
    /\ (r !! "success" = Some (VBool false) ->
        is_Some (r !! "error")
        /\ r !! "records" = None /\ r !! "count" = None).
Proof.
  destruct (dns_lookup_cases lib domain record_type (backend st))
    as (r & w & cs & Hrun & Hcases).
  exists r. eexists. split; [apply Hrun; reflexivity|].
  assert (forall error d,
             r = failure error d record_type ->
             r !! "record_type" = Some (VStr record_type)
             /\ r !! "domain" = Some (VStr d)
             /\ (r !! "success" = Some (VBool true)
                 \/ r !! "success" = Some (VBool false))
             /\ (r !! "success" = Some (VBool false) ->
                 is_Some (r !! "error")
                 /\ r !! "records" = None /\ r !! "count" = None))
    as Hfail.
  { intros error d ->.
    rewrite failure_record_type, failure_domain, failure_success,
      failure_error, failure_records, failure_count. eauto 10. }
  assert (forall records d,
             r = success d record_type records ->
             r !! "record_type" = Some (VStr record_type)
             /\ r !! "domain" = Some (VStr d)
             /\ (r !! "success" = Some (VBool true)
                 \/ r !! "success" = Some (VBool false))
             /\ (r !! "success" = Some (VBool false) ->
                 is_Some (r !! "error")
                 /\ r !! "records" = None /\ r !! "count" = None))
    as Hsucc.
  { intros records d ->.
    rewrite success_record_type, success_domain, success_success.
    repeat split; auto. all: discriminate. }
  assert (exists d,
             (r !! "record_type" = Some (VStr record_type)
              /\ r !! "domain" = Some (VStr d)
              /\ (r !! "success" = Some (VBool true)
                  \/ r !! "success" = Some (VBool false))
              /\ (r !! "success" = Some (VBool false) ->
                  is_Some (r !! "error")
                  /\ r !! "records" = None /\ r !! "count" = None))
             /\ d = (if validate_domain domain then
                       match query_name lib domain record_type with
                       | Some qname => qname
                       | None => domain
                       end
                     else domain))
    as (d & (H1 & H2 & H3 & H4) & Hd).
  { destruct Hcases
      as [(Hv & Hr & _)|[(Hv & Hq & Hr & _)|(Hv & q & Hq & _ & Hout)]].
    - exists domain. rewrite Hv. eauto.
    - exists domain. rewrite Hv, Hq. eauto.
    - exists q. rewrite Hv, Hq. split; [|reflexivity].
      destruct Hout
        as [(e & _ & Hr)|[(a & rs & _ & _ & Hr)|(a & rd & e & _ & _ & _ & Hr)]];
        eauto. }
  split; [exact H1|]. rewrite H2, Hd. unfold query_name.
  split; [|split; [|split; [exact H3|exact H4]]].
  - intros n -> Ht Hn. rewrite Ht, Hn. reflexivity.
  - intros [->|[Ht|(e & He)]]; [reflexivity| |].
    + apply String.eqb_neq in Ht. rewrite Ht. destruct (validate_domain domain);
        reflexivity.
    + rewrite He. destruct (validate_domain domain); [|reflexivity].
      destruct (String.eqb (upper record_type) "PTR"); reflexivity.
Qed.

End LookupClaims.

(** ** The claims on the small resolver *)

Lemma fixture_signals_no_answer : signals_no_answer Fixture.lib.
Proof.
  intros w qname rdtype answers w'. simpl. unfold Fixture.zone_resolve.
  destruct (Fixture.assoc qname w) as [rrsets|]; [|discriminate].
  destruct (Fixture.assoc (upper rdtype) rrsets) as [[|rd l]|];
    try discriminate.
  intros H. injection H as <- _. discriminate.
Qed.

Lemma dns_lookup_invalid_domain_witness :
  exists st',
    dns_lookup Fixture.lib "" "A" Fixture.start
    = (inr (failure "Invalid domain format" "" "A"), st')
    /\ backend st' = backend Fixture.start
    /\ calls st' = calls Fixture.start
    /\ filter (fun c => is_query c = true) (calls st')
       = filter (fun c => is_query c = true) (calls Fixture.start).
Proof.
  apply (dns_lookup_invalid_domain Fixture.lib "" "A" Fixture.start).
  - vm_compute. discriminate.
  - reflexivity.
Defined.

Lemma dns_lookup_error_mapping_witness :
  fst (dns_lookup Fixture.lib "nonexistent-domain-xyz.invalid" "A"
         Fixture.start)
  = inr (failure "Domain does not exist"
           "nonexistent-domain-xyz.invalid" "A").
Proof.
  destruct (proj2 (dns_lookup_error_mapping Fixture.lib
                     "nonexistent-domain-xyz.invalid" "A" Fixture.start)
              "nonexistent-domain-xyz.invalid"
              {| exc_type := NXDOMAIN;
                 exc_str := "The DNS query name does not exist: "
                            +:+ "nonexistent-domain-xyz.invalid" |}
              Fixture.example_zone)
    as (error & Heq & Hnx & _).
  - vm_compute. reflexivity.
  - reflexivity.
  - reflexivity.
  - rewrite Heq, (Hnx eq_refl). reflexivity.
Defined.

Lemma dns_lookup_success_records_witness :
  exists r,
    fst (dns_lookup Fixture.lib "example.com" "MX" Fixture.start) = inr r
    /\ r !! "records"
       = Some (VList [RDict (py_dict [("preference", AInt 10);
                                      ("exchange", AStr "mail.example.com")])])
    /\ r !! "count" = Some (VInt 1)
    /\ exists records,
        r !! "records" = Some (VList records) /\ records <> [].
Proof.
  destruct (dns_lookup_success_records Fixture.lib "example.com" "MX"
              Fixture.start) as [Hfwd Hbwd].
  destruct (Hfwd "example.com" [Fixture.mx_answer] Fixture.example_zone
              [RDict (py_dict [("preference", AInt 10);
                               ("exchange", AStr "mail.example.com")])])
    as (r & Hr & Hs & Hrecs & Hcount).
  - vm_compute. reflexivity.
  - reflexivity.
  - reflexivity.
  - simpl. lia.
  - constructor; [reflexivity|constructor].
  - exists r. split; [exact Hr|]. split; [exact Hrecs|].
    split; [exact Hcount|].
    destruct (Hbwd fixture_signals_no_answer r Hr Hs)
      as (records & Hrecs' & Hne & _).
    exists records. split; assumption.
Defined.

Lemma dns_lookup_mx_example_witness :
  fst (dns_lookup Fixture.lib "example.com" "MX" Fixture.start)
  = inr (py_dict
           [("success", VBool true);
            ("domain", VStr "example.com");
            ("record_type", VStr "MX");
            ("records",
             VList [RDict (py_dict [("preference", AInt 10);
                                    ("exchange", AStr "mail.example.com")])]);
            ("count", VInt 1)]).
Proof.
  apply (dns_lookup_mx_example Fixture.lib Fixture.start Fixture.example_zone
           Fixture.mx_answer); reflexivity.
Defined.

(** The example of C8: the answer ["v=spf1 -all"], quotes included, gives
    the record [v=spf1 -all]. *)
Lemma dns_lookup_txt_stripped_witness :
  fst (dns_lookup Fixture.lib "example.com" "TXT" Fixture.start)
  = inr (success "example.com" "TXT" [RStr "v=spf1 -all"]).
Proof.
  destruct (dns_lookup_txt_stripped Fixture.lib "example.com" "TXT"
              Fixture.start [Fixture.txt_answer] Fixture.example_zone)
    as (records & Heq & -> & _).
  - vm_compute. reflexivity.
  - reflexivity.
  - reflexivity.
  - exact Heq.
Defined.

Lemma dns_lookup_idempotent_witness :
  exists r,
    fst (dns_lookup Fixture.lib "example.com" "TXT" Fixture.start) = inr r
    /\ fst (dns_lookup Fixture.lib "example.com" "TXT"
              (snd (dns_lookup Fixture.lib "example.com" "TXT" Fixture.start)))
       = inr r
    /\ fst (dns_lookup Fixture.lib "example.com" "TXT"
              (snd (dns_lookup Fixture.lib "example.com" "TXT" Fixture.start)))
       = fst (dns_lookup Fixture.lib "example.com" "TXT" Fixture.start).
Proof.
  apply (dns_lookup_idempotent Fixture.lib "example.com" "TXT" Fixture.start).
  vm_compute. reflexivity.
Defined.

Lemma dns_lookup_result_keys_witness :
  (exists r,
      fst (dns_lookup Fixture.lib "example.com" "ptr" Fixture.start) = inr r
      /\ r !! "record_type" = Some (VStr "ptr")
      /\ r !! "domain" = Some (VStr "example.com")
      /\ is_Some (r !! "error")
      /\ r !! "records" = None /\ r !! "count" = None)
  /\ (exists r,
         fst (dns_lookup Fixture.converting_lib "example.com" "PTR"
                Fixture.start) = inr r
         /\ r !! "domain" = Some (VStr "example.com.in-addr.arpa.")).
Proof.
  split.
  - destruct (dns_lookup_result_keys Fixture.lib "example.com" "ptr"
                Fixture.start)
      as (r & st' & Hrun & Htype & _ & Hdomain & _ & Hfail).
    exists r. rewrite Hrun. split; [reflexivity|]. split; [exact Htype|].
    split.
    + apply Hdomain. right. right. eexists. reflexivity.
    + apply Hfail.
      assert (fst (dns_lookup Fixture.lib "example.com" "ptr" Fixture.start)
              = inr (failure "Invalid IP address for PTR lookup"
                       "example.com" "ptr")) as E by (vm_compute; reflexivity).
      rewrite Hrun in E. simpl in E. injection E as ->.
      apply failure_success.
  - destruct (dns_lookup_result_keys Fixture.converting_lib "example.com"
                "PTR" Fixture.start)
      as (r & st' & Hrun & _ & Hrev & _).
    exists r. rewrite Hrun. split; [reflexivity|].
    apply Hrev; reflexivity.
Defined.

(** ** More on the validator *)












Lemma accepted_shape l :
  accepted l ->
  exists body e,
    l = body ++ e /\ (e = [] \/ e = [newline])
    /\ forallb (fun c => is_label_char c || Ascii.eqb c dot) body = true
    /\ 4 <= length body /\ In dot body
    /\ exists c rest, body = c :: rest /\ is_alnum c = true.
Proof.
  intros (labels & top & e & -> & Hne & Hl & Ht & He).
  exists (concat (map (fun x => x ++ [dot]) labels) ++ top), e.
  rewrite <- app_assoc. split; [reflexivity|]. split; [exact He|].
  apply spec_top_label_iff in Ht as [Hall Hlen].
  destruct labels as [|l labels]; [congruence|]. clear Hne.
  inversion Hl as [|? ? Hl1 Hls]; subst.
  apply spec_label_iff in Hl1 as ([Hlo _] & Hchars & Hstart & _).
  destruct l as [|c l]; [simpl in Hlo; lia|].
  split; [|split; [|split]].
  - rewrite forallb_app. apply andb_true_iff. split.
    + clear -Hl. induction Hl as [|x xs Hx _ IH]; [reflexivity|].
      simpl. rewrite !forallb_app, IH. simpl.
      apply spec_label_iff in Hx as (_ & Hx & _).
      rewrite andb_true_r, andb_true_r.
      clear -Hx. induction x as [|c x IH]; [reflexivity|].
      simpl in *. apply andb_prop in Hx as [-> Hx]. simpl. auto.
    + clear -Hall. induction top as [|c top IH]; [reflexivity|].
      simpl in *. apply andb_prop in Hall as [Hc Hall].
      rewrite (alnum_label_char c (alpha_alnum c Hc)). simpl. auto.
  - simpl. rewrite ?length_app. simpl. rewrite ?length_app. simpl. lia.
  - simpl. rewrite <- !app_assoc. simpl. right.
    apply in_or_app. right. left. reflexivity.
  - exists c. eexists. simpl. split; [reflexivity|].
    simpl in Hchars, Hstart. apply andb_prop in Hchars as [Hc _].
    apply label_char_alnum; assumption.
Qed.

(** X2: an accepted name is made of ASCII letters, digits, hyphens and
    dots only, apart from one newline that may end it. *)
Theorem validate_domain_charset (s : string) :
  validate_domain s = true ->
  exists body e,
    chars s = body ++ e /\ (e = [] \/ e = [newline])
    /\ forallb (fun c => is_label_char c || Ascii.eqb c dot) body = true.
Proof.
  intros H. apply validate_domain_true in H as (_ & _ & Hacc).
  apply accepted_shape in Hacc as (body & e & Hs & He & Hchars & _).
  exists body, e. auto.
Qed.

Lemma validate_domain_charset_witness :
  exists body e,
    chars "my-host.example.org" = body ++ e /\ (e = [] \/ e = [newline])
    /\ forallb (fun c => is_label_char c || Ascii.eqb c dot) body = true.
Proof.
  apply (validate_domain_charset "my-host.example.org"). reflexivity.
Defined.

(** X3: an accepted name has from 4 to 253 characters, holds a dot and
    starts with a letter or a digit; so a name of one label, such as
    localhost, never passes. *)
Theorem validate_domain_shape (s : string) :
  validate_domain s = true ->
  4 <= String.length s <= 253
  /\ In dot (chars s)
  /\ exists c rest, chars s = c :: rest /\ is_alnum c = true.
Proof.
  intros H. apply validate_domain_true in H as (_ & Hlen & Hacc).
  apply accepted_shape in Hacc
    as (body & e & Hs & He & _ & Hfour & Hdot & c & rest & -> & Hc).
  rewrite <- length_chars, Hs, length_app. repeat split.
  - lia.
  - rewrite <- length_app, <- Hs, length_chars. exact Hlen.
  - apply in_or_app. left. exact Hdot.
  - exists c, (rest ++ e). auto.
Qed.

Lemma validate_domain_shape_witness :
  4 <= String.length "a.co" <= 253
  /\ In dot (chars "a.co")
  /\ exists c rest, chars "a.co" = c :: rest /\ is_alnum c = true.
Proof. apply (validate_domain_shape "a.co"). reflexivity. Defined.

(** X4: a text that holds a colon or ends with a digit is rejected: no
    IPv6 literal and no dotted-quad IPv4 address is a valid domain. *)
Theorem validate_domain_rejects_addresses (s : string) (c : ascii) :
  existsb (fun x => Ascii.eqb x ":") (chars s) = true
  \/ (ends_with c (chars s) = true /\ is_digit c = true) ->
  validate_domain s = false.
Proof.
  intros H. destruct (validate_domain s) eqn:Hv; [|reflexivity].
  apply validate_domain_no_address in Hv as [Hcolon Hdigit].
  destruct H as [H|[H1 H2]]; [congruence|].
  rewrite (Hdigit c H1) in H2. discriminate.
Qed.

Lemma validate_domain_rejects_addresses_witness :
  validate_domain "2001:db8::1" = false
  /\ validate_domain "192.168.0.1" = false.
Proof.
  split.
  - apply (validate_domain_rejects_addresses "2001:db8::1" "1").
    left. reflexivity.
  - apply (validate_domain_rejects_addresses "192.168.0.1" "1").
    right. split; reflexivity.
Defined.

Lemma grammar_no_newline s :
  spec_domain_grammar s = true -> ends_with_newline s = false.
Proof.
  intros Hg. unfold ends_with_newline.
  destruct (ends_with newline (chars s)) eqn:E; [|reflexivity].
  apply spec_domain_grammar_iff in Hg as (labels & top & Heq & _ & _ & Ht).
  rewrite Heq in E. apply spec_top_label_iff in Ht as [Hall Hn].
  destruct (@exists_last _ top) as (r & d & ->);
    [destruct top; [simpl in Hn; lia|discriminate]|].
  rewrite app_assoc, ends_with_snoc in E. apply Ascii.eqb_eq in E.
  subst d. rewrite forallb_app in Hall.
  apply andb_prop in Hall as [_ Hall]. vm_compute in Hall. discriminate.
Qed.

(** X5: one newline after a name is not seen by the validator: a text of
    at most 252 characters that does not end with a newline is accepted
    or rejected together with the same text followed by a newline. *)
Theorem validate_domain_trailing_newline (s : string) :
  ends_with_newline s = false ->
  String.length s <= 252 ->
  validate_domain (text (chars s ++ [newline])) = validate_domain s.
Proof.
  intros Hnl Hlen.
  assert (String.length (text (chars s ++ [newline])) = S (String.length s))
    as Hlen'.
  { rewrite <- !length_chars, chars_text, length_app. simpl. lia. }
  destruct (validate_domain s) eqn:Hv.
  - apply validate_domain_characterized.
    apply validate_domain_characterized in Hv as [_ [Hg|(g & -> & _)]].
    + split; [lia|]. right. exists s. auto.
    + unfold ends_with_newline in Hnl.
      rewrite chars_text, ends_with_snoc in Hnl. discriminate.
  - destruct (validate_domain (text (chars s ++ [newline]))) eqn:Hv';
      [|reflexivity].
    apply validate_domain_characterized in Hv' as [_ [Hg|(g & Heq & Hg)]].
    + apply grammar_no_newline in Hg. unfold ends_with_newline in Hg.
      rewrite chars_text, ends_with_snoc in Hg. discriminate.
    + apply (f_equal chars) in Heq. rewrite !chars_text in Heq.
      apply app_inj_tail in Heq as [Heq _].
      apply (f_equal text) in Heq. rewrite !text_chars in Heq. subst g.
      assert (validate_domain s = true); [|congruence].
      apply validate_domain_characterized. split; [lia|auto].
Qed.

Lemma validate_domain_trailing_newline_witness :
  validate_domain (text (chars "example.com" ++ [newline])) = true.
Proof.
  rewrite (validate_domain_trailing_newline "example.com").
  - reflexivity.
  - reflexivity.
  - vm_compute. lia.
Defined.

(** ** More on the lookup *)

Section LookupExtras.

Context {W : Type} (lib : library W).

(** X6: one lookup makes at most one query to the resolver and never asks
    again: none for a rejected domain or a failed PTR conversion, and
    otherwise one, for the domain itself and the record type as given, or
    for the converted name of a PTR lookup; the conversion is called for
    PTR only, and once. *)
Theorem dns_lookup_calls (domain record_type : string) (st : state W) :
  exists cs,
    calls (snd (dns_lookup lib domain record_type st)) = calls st ++ cs
    /\ length (filter (fun c => is_query c = true) cs) <= 1
    /\ ((validate_domain domain = false /\ cs = [])
        \/ (validate_domain domain = true
            /\ String.eqb (upper record_type) "PTR" = false
            /\ cs = [Resolve domain record_type])
        \/ (validate_domain domain = true
            /\ String.eqb (upper record_type) "PTR" = true
            /\ ((exists e, lib_from_address lib domain = inl e
                           /\ cs = [FromAddress domain])
                \/ (exists reversed_name,
                       lib_from_address lib domain = inr reversed_name
                       /\ cs = [FromAddress domain;
                                Resolve reversed_name record_type])))).
Proof.
  destruct (dns_lookup_cases lib domain record_type (backend st))
    as (r & w & cs & Hrun & Hcases).
  exists cs. rewrite (Hrun st eq_refl). simpl. split; [reflexivity|].
  unfold query_name, reverse_calls in Hcases.
  destruct Hcases
    as [(Hv & _ & _ & ->)|[(Hv & Hq & _ & _ & ->)|(Hv & q & Hq & -> & _)]].
  - split; [simpl; lia|]. auto.
  - split; [simpl; lia|]. right. right.
    destruct (String.eqb (upper record_type) "PTR"); [|discriminate].
    destruct (lib_from_address lib domain) as [e|n]; [|discriminate].
    eauto 10.
  - destruct (String.eqb (upper record_type) "PTR").
    + destruct (lib_from_address lib domain) as [e|n]; [discriminate|].
      injection Hq as ->. split; [simpl; lia|]. right. right. eauto 10.
    + injection Hq as ->. split; [simpl; lia|]. right. left. auto.
Qed.

(** X7: a PTR lookup of a text that passes the validator and that the
    conversion refuses returns the failure "Invalid IP address for PTR
    lookup" with the text as the domain; the conversion has been called
    once and the resolver not at all. *)
Theorem dns_lookup_ptr_not_address (domain record_type : string)
    (st : state W) (e : exc) :
  validate_domain domain = true ->
  upper record_type = "PTR" ->
  lib_from_address lib domain = inl e ->
  dns_lookup lib domain record_type st
  = (inr (failure "Invalid IP address for PTR lookup" domain record_type),
     {| backend := backend st;
        calls := calls st ++ [FromAddress domain] |}).
Proof.
  intros Hv Ht He.
  rewrite dns_lookup_valid, reverse_block_spec by exact Hv.
  rewrite Ht, He. reflexivity.
Qed.

(** X8: a SOA lookup whose answers are SOA records returns, for each answer
    and in their order, the dictionary of its seven fields. *)
Theorem dns_lookup_soa_records (domain record_type : string)
    (st : state W) (answers : list rdata) (w : W) :
  validate_domain domain = true ->
  upper record_type = "SOA" ->
  lib_resolve lib (backend st) domain record_type = (inr answers, w) ->
  Forall (fun rdata =>
            exists mname rname serial refresh retry expire minimum,
              rd_fields rdata
              = SOAFields mname rname serial refresh retry expire minimum)
         answers ->
  exists records,
    fst (dns_lookup lib domain record_type st)
    = inr (success domain record_type records)
    /\ Forall2 (fun rdata record =>
                  exists mname rname serial refresh retry expire minimum,
                    rd_fields rdata
                    = SOAFields mname rname serial refresh retry expire minimum
                    /\ record
                       = RDict (py_dict [("mname", AStr mname);
                                         ("rname", AStr rname);
                                         ("serial", AInt serial);
                                         ("refresh", AInt refresh);
                                         ("retry", AInt retry);
                                         ("expire", AInt expire);
                                         ("minimum", AInt minimum)]))
               answers records.
Proof.
  intros Hv Ht Ha Hsoa.
  assert (query_name lib domain record_type = Some domain) as Hq.
  { unfold query_name. rewrite Ht. reflexivity. }
  assert (exists records,
             Forall2 (fun rdata record =>
                        record_of record_type rdata = inr record)
                     answers records
             /\ Forall2 (fun rdata record =>
                  exists mname rname serial refresh retry expire minimum,
                    rd_fields rdata
                    = SOAFields mname rname serial refresh retry expire minimum
                    /\ record
                       = RDict (py_dict [("mname", AStr mname);
                                         ("rname", AStr rname);
                                         ("serial", AInt serial);
                                         ("refresh", AInt refresh);
                                         ("retry", AInt retry);
                                         ("expire", AInt expire);
                                         ("minimum", AInt minimum)]))
                  answers records) as (records & Hrec & Hshape).
  { clear Ha. induction Hsoa as [|rd answers Hrd _ (records & IH1 & IH2)].
    - exists []. split; constructor.
    - destruct Hrd as (m & r & s & rf & rt & ex & mi & Hrd).
      eexists (_ :: records). split; constructor; try eassumption.
      + unfold record_of. rewrite Ht. simpl.
        unfold get_mname, get_rname, get_serial, get_refresh, get_retry,
          get_expire, get_minimum, get_soa. rewrite Hrd. simpl. reflexivity.
      + exists m, r, s, rf, rt, ex, mi. auto. }
  exists records. split; [|exact Hshape].
  eapply dns_lookup_answered; eassumption.
Qed.

(** X9: for a record type that is none of MX, TXT, SOA and PTR in any
    letter case (A, AAAA, CNAME, NS, ...), answers of the resolver always
    give a success, whose records are the texts of the answers, unchanged
    and in their order. *)
Theorem dns_lookup_plain_records (domain record_type : string)
    (st : state W) (answers : list rdata) (w : W) :
  validate_domain domain = true ->
  upper record_type <> "MX" -> upper record_type <> "TXT" ->
  upper record_type <> "SOA" -> upper record_type <> "PTR" ->
  lib_resolve lib (backend st) domain record_type = (inr answers, w) ->
  fst (dns_lookup lib domain record_type st)
  = inr (success domain record_type
           (map (fun rdata => RStr (rd_text rdata)) answers)).
Proof.
  intros Hv Hmx Htxt Hsoa Hptr Ha.
  apply String.eqb_neq in Hmx, Htxt, Hsoa, Hptr.
  assert (query_name lib domain record_type = Some domain) as Hq.
  { unfold query_name. rewrite Hptr. reflexivity. }
  eapply dns_lookup_answered; [exact Hv|exact Hq|exact Ha|].
  clear Ha. induction answers as [|rd answers IH]; constructor; auto.
  unfold record_of. rewrite Hmx, Htxt, Hsoa. reflexivity.
Qed.

Lemma query_block_loop_raised qname record_type (st : state W) answers w e :
  lib_resolve lib (backend st) qname record_type = (inr answers, w) ->
  (forall results (s : state W),
      for_answers record_type answers results s = (inl e, s)) ->
  exc_type e = AttributeError ->
  query_block lib qname record_type st
  = (inr (failure ("Unexpected error: " +:+ exc_str e) qname record_type),
     queried st w qname record_type).
Proof.
  intros Ha Hloop He. unfold query_block, try_except, bind, resolve.
  rewrite Ha, Hloop, dispatch_query_handlers. unfold error_message.
  rewrite He. reflexivity.
Qed.

(** X10: no partial result.  When one answer lacks an attribute that is
    read for the record type, the lookup is the failure "Unexpected
    error" of the first such answer, and the records of the answers
    before it are not returned. *)
Theorem dns_lookup_no_partial_result (domain record_type qname : string)
    (st : state W) (good : list rdata) (bad : rdata) (rest : list rdata)
    (records : list record_val) (e : exc) (w : W) :
  validate_domain domain = true ->
  query_name lib domain record_type = Some qname ->
  lib_resolve lib (backend st) qname record_type
  = (inr (good ++ bad :: rest), w) ->
  Forall2 (fun rdata record => record_of record_type rdata = inr record)
          good records ->
  record_of record_type bad = inl e ->
  fst (dns_lookup lib domain record_type st)
  = inr (failure ("Unexpected error: " +:+ exc_str e) qname record_type).
Proof.
  intros Hv Hq Ha Hgood Hbad.
  rewrite (dns_lookup_queries lib _ _ _ _ Hv Hq).
  erewrite query_block_loop_raised; [reflexivity|exact Ha| |].
  - clear -Hgood Hbad. induction Hgood as [|rd rec good records H _ IH];
      intros results s; simpl; unfold bind, lift.
    + rewrite Hbad. reflexivity.
    + rewrite H. apply IH.
  - apply (record_of_raises _ _ _ Hbad).
Qed.

(** X11: the keys of a returned dictionary are exactly success, error,
    domain and record_type for a failure, and exactly success, domain,
    record_type, records and count for a success. *)
Theorem dns_lookup_key_sets (domain record_type : string) (st : state W) :
  exists r,
    fst (dns_lookup lib domain record_type st) = inr r
    /\ ((r !! "success" = Some (VBool false)
         /\ dom r = list_to_set ["success"; "error"; "domain"; "record_type"])
        \/ (r !! "success" = Some (VBool true)
            /\ dom r = list_to_set ["success"; "domain"; "record_type";
                                    "records"; "count"])).
Proof.
  assert (forall error d,
             dom (failure error d record_type)
             = list_to_set ["success"; "error"; "domain"; "record_type"])
    as Hfail.
  { intros. unfold failure, py_dict. simpl.
    rewrite !dom_insert_L, dom_empty_L. set_solver. }
  assert (forall d records,
             dom (success d record_type records)
             = list_to_set ["success"; "domain"; "record_type";
                            "records"; "count"]) as Hsucc.
  { intros. unfold success, py_dict. simpl.
    rewrite !dom_insert_L, dom_empty_L. set_solver. }
  destruct (dns_lookup_cases lib domain record_type (backend st))
    as (r & w & cs & Hrun & Hcases).
  exists r. rewrite (Hrun st eq_refl). split; [reflexivity|].
  destruct Hcases
    as [(_ & -> & _)|[(_ & _ & -> & _)|(_ & q & _ & _ & Hout)]].
  - left. rewrite failure_success, Hfail. auto.
  - left. rewrite failure_success, Hfail. auto.
  - destruct Hout
      as [(e & _ & ->)|[(a & rs & _ & _ & ->)|(a & rd & e & _ & _ & _ & ->)]].
    + left. rewrite failure_success, Hfail. auto.
    + right. rewrite success_success, Hsucc. auto.
    + left. rewrite failure_success, Hfail. auto.
Qed.

End LookupExtras.

Lemma dns_lookup_ptr_not_address_witness :
  dns_lookup Fixture.lib "example.com" "ptr" Fixture.start
  = (inr (failure "Invalid IP address for PTR lookup" "example.com" "ptr"),
     {| backend := Fixture.example_zone;
        calls := [FromAddress "example.com"] |}).
Proof.
  apply (dns_lookup_ptr_not_address Fixture.lib "example.com" "ptr"
           Fixture.start
           {| exc_type := DNSException;
              exc_str := "Text input is malformed." |});
    reflexivity.
Defined.

Lemma dns_lookup_soa_records_witness :
  fst (dns_lookup Fixture.lib "example.com" "soa" Zones.start)
  = inr (success "example.com" "soa"
           [RDict (py_dict [("mname", AStr "ns.example.com.");
                            ("rname", AStr "admin.example.com.");
                            ("serial", AInt 2024010101);
                            ("refresh", AInt 7200);
                            ("retry", AInt 3600);
                            ("expire", AInt 1209600);
                            ("minimum", AInt 300)])]).
Proof.
  destruct (dns_lookup_soa_records Fixture.lib "example.com" "soa"
              Zones.start [Zones.soa_answer] Zones.zone)
    as (records & Heq & Hshape).
  - reflexivity.
  - reflexivity.
  - reflexivity.
  - constructor; [|constructor]. repeat eexists.
  - rewrite Heq. inversion Hshape as [|? rec ? ? Hrec Hnil]; subst.
    inversion Hnil; subst.
    destruct Hrec as (m & r & s & rf & rt & ex & mi & Hf & ->).
    injection Hf as <- <- <- <- <- <- <-. reflexivity.
Defined.

Lemma dns_lookup_plain_records_witness :
  fst (dns_lookup Fixture.lib "example.com" "A" Zones.start)
  = inr (success "example.com" "A"
           [RStr "93.184.216.34"; RStr "93.184.216.35"]).
Proof.
  apply (dns_lookup_plain_records Fixture.lib "example.com" "A" Zones.start
           [Zones.a_answer "93.184.216.34"; Zones.a_answer "93.184.216.35"]
           Zones.zone);
    try reflexivity; vm_compute; discriminate.
Defined.

Lemma dns_lookup_no_partial_result_witness :
  fst (dns_lookup Fixture.lib "example.com" "MX" Zones.start)
  = inr (failure
           "Unexpected error: 'A' object has no attribute 'preference'"
           "example.com" "MX").
Proof.
  apply (dns_lookup_no_partial_result Fixture.lib "example.com" "MX"
           "example.com" Zones.start [Fixture.mx_answer]
           (Zones.a_answer "93.184.216.34") []
           [RDict (py_dict [("preference", AInt 10);
                            ("exchange", AStr "mail.example.com")])]
           {| exc_type := AttributeError;
              exc_str := "'A' object has no attribute 'preference'" |}
           Zones.zone).
  - reflexivity.
  - reflexivity.
  - reflexivity.
  - constructor; [reflexivity|constructor].
  - reflexivity.
Defined.

(** ** The command line *)

Section CliRuns.

Import Cli.

Context {W C : Type} (lib : library W) (P : presenter C).

(** *** How runs compose *)

Lemma returns_ret {A} (a : A) (s : cli_state W C) :
  returns (cret a) s a (net s) [].
Proof. exists (screen s). unfold cret. rewrite app_nil_r. destruct s; auto. Qed.

Lemma returns_clift {A} (r : result A) (a : A) (s : cli_state W C) :
  r = inr a -> returns (clift r) s a (net s) [].
Proof.
  intros ->. exists (screen s). unfold clift. rewrite app_nil_r.
  destruct s; auto.
Qed.

Lemma returns_show (o : op) (s : cli_state W C) :
  never_raises P -> returns (show P o) s tt (net s) [o].
Proof.
  intros Hp. unfold returns, show. specialize (Hp (screen s) o).
  destruct (present P (screen s) o) as [r c]. simpl in Hp. subst r.
  exists c. reflexivity.
Qed.

Lemma returns_bind {A B} (m : CM W C A) (k : A -> CM W C B) s a st os b st'
    os' :
  returns m s a st os ->
  (forall s1, net s1 = st -> shown s1 = shown s ++ os ->
              returns (k a) s1 b st' os') ->
  returns (cbind m k) s b st' (os ++ os').
Proof.
  intros (c & Hm) Hk. unfold returns, cbind. rewrite Hm.
  destruct (Hk {| net := st; screen := c; shown := shown s ++ os |}
              eq_refl eq_refl) as (c' & Hk').
  exists c'. rewrite Hk'. simpl. rewrite <- app_assoc. reflexivity.
Qed.

Lemma returns_lookup domain record_type (s : cli_state W C) r st :
  dns_lookup lib domain record_type (net s) = (inr r, st) ->
  returns (lookup lib domain record_type) s r st [].
Proof.
  intros H. unfold returns, lookup. rewrite H, app_nil_r.
  exists (screen s).
  reflexivity.
Qed.

Lemma returns_finally {A} (body : CM W C A) (cleanup : CM W C unit) s a st os
    os' :
  returns body s a st os ->
  (forall s1, net s1 = st -> shown s1 = shown s ++ os ->
              returns cleanup s1 tt st os') ->
  returns (finally body cleanup) s a st (os ++ os').
Proof.
  intros (c & Hb) Hc. unfold returns, finally. rewrite Hb.
  destruct (Hc {| net := st; screen := c; shown := shown s ++ os |}
              eq_refl eq_refl) as (c' & Hc').
  exists c'. rewrite Hc'. simpl. rewrite <- app_assoc. reflexivity.
Qed.

Lemma returns_for_each {A} (body : A -> CM W C unit) (row : A -> op) l :
  never_raises P ->
  (forall x, In x l -> body x = show P (row x)) ->
  forall s, returns (for_each l body) s tt (net s) (map row l).
Proof.
  intros Hp. induction l as [|x l IH]; intros Hbody s.
  - apply returns_ret.
  - simpl. change (row x :: map row l) with ([row x] ++ map row l).
    eapply returns_bind.
    + rewrite Hbody by (left; reflexivity). apply returns_show, Hp.
    + intros s1 <- _. apply IH. intros y Hy. apply Hbody. right. exact Hy.
Qed.

Lemma returns_for_each_rows {A} (body : A -> CM W C unit) l :
  never_raises P ->
  (forall x, In x l ->
             exists o, is_row o = true /\ forall s, body x s = show P o s) ->
  exists os,
    (forall s, returns (for_each l body) s tt (net s) os)
    /\ List.filter is_row os = os /\ length os = length l.
Proof.
  intros Hp. induction l as [|x l IH]; intros Hbody.
  - exists []. split; [intros s; apply returns_ret|auto].
  - destruct (Hbody x (or_introl eq_refl)) as (o & Ho & Hx).
    destruct (IH (fun y Hy => Hbody y (or_intror Hy)))
      as (os & Hos & Hrows & Hlen).
    exists ([o] ++ os). split; [|split].
    + intros s. simpl for_each. eapply returns_bind.
      * destruct (returns_show o s Hp) as (c & Hc). exists c.
        rewrite Hx. exact Hc.
      * intros s1 <- _. apply Hos.
    + simpl. rewrite Ho, Hrows. reflexivity.
    + simpl. rewrite Hlen. reflexivity.
Qed.

(** *** The text of a result *)

Lemma getitem_some {V} (d : gmap string V) key v :
  d !! key = Some v -> getitem d key = inr v.
Proof. unfold getitem. intros ->. reflexivity. Qed.

Lemma record_of_row record_type rdata record :
  record_of record_type rdata = inr record ->
  (upper record_type = "MX" ->
   exists preference exchange,
     index_of record "preference" = inr preference
     /\ index_of record "exchange" = inr exchange)
  /\ (upper record_type = "SOA" -> exists items, items_of record = inr items).
Proof.
  unfold record_of. intros H. split; intros Ht; rewrite Ht in H; simpl in H.
  - unfold get_preference, get_exchange in H.
    destruct (rd_fields rdata); try discriminate.
    simpl in H. injection H as <-. eexists _, _. split; reflexivity.
  - unfold get_mname, get_rname, get_serial, get_refresh, get_retry,
      get_expire, get_minimum, get_soa in H.
    destruct (rd_fields rdata); try discriminate.
    simpl in H. injection H as <-. eexists. reflexivity.
Qed.

Lemma format_text_failure error domain record_type verbose
    (s : cli_state W C) :
  never_raises P ->
  returns (format_text_output P (failure error domain record_type) verbose)
          s tt (net s) [PrintError (VStr error)].
Proof.
  intros Hp. unfold format_text_output.
  change [PrintError (VStr error)] with ([] ++ [] ++ [PrintError (VStr error)]).
  eapply returns_bind.
  { apply returns_clift, getitem_some, failure_success. }
  intros s1 <- _. simpl negb. cbv iota.
  eapply returns_bind.
  { apply returns_clift, getitem_some, failure_error. }
  intros s2 <- _. apply returns_show, Hp.
Qed.

Lemma format_text_success domain record_type answers records verbose :
  never_raises P ->
  Forall2 (fun rdata record => record_of record_type rdata = inr record)
          answers records ->
  exists rows,
    (forall s : cli_state W C,
        returns (format_text_output P (success domain record_type records)
                                    verbose)
                s tt (net s)
                ([PrintResultsFor (VStr domain);
                  PrintRecordType (VStr record_type);
                  PrintRecordsFound (VInt (Z.of_nat (length records)));
                  NewTable]
                 ++ rows ++ [PrintTable]
                 ++ (if verbose then [PrintCompleted] else [])))
    /\ length (List.filter is_row rows) = length records.
Proof.
  intros Hp HF.
  assert (forall rec, In rec records ->
            exists rd, record_of record_type rd = inr rec) as Hrec.
  { clear -HF. induction HF as [|rd rec answers records H _ IH];
      intros r [].
    - subst. eauto.
    - apply IH. assumption. }
  assert (exists cols body,
             (forall s : cli_state W C,
                 returns
                   (if String.eqb (upper record_type) "MX" then
                      cbind (show P (AddColumn "Priority")) (fun _ =>
                      cbind (show P (AddColumn "Mail Server")) (fun _ =>
                      cbind (clift (getitem (success domain record_type
                                               records) "records"))
                        (fun recs =>
                      cbind (clift (iter_of recs)) (fun recs =>
                      for_each recs (fun record =>
                        cbind (clift (index_of record "preference"))
                          (fun preference =>
                        cbind (clift (index_of record "exchange"))
                          (fun exchange =>
                        show P (AddRow [CStrOfAtom preference;
                                        CAtom exchange]))))))))
                    else
                      cbind (clift (getitem (success domain record_type
                                               records) "record_type"))
                        (fun rt =>
                      cbind (clift (upper_of rt)) (fun upper_type =>
                      if String.eqb upper_type "SOA" then
                        cbind (show P (AddColumn "Field")) (fun _ =>
                        cbind (show P (AddColumn "Value")) (fun _ =>
                        cbind (clift (getitem (success domain record_type
                                                 records) "records"))
                          (fun recs =>
                        cbind (clift (iter_of recs)) (fun recs =>
                        for_each recs (fun record =>
                          cbind (clift (items_of record)) (fun items =>
                          show P (AddItemRows items)))))))
                      else
                        cbind (show P (AddColumn "Record")) (fun _ =>
                        cbind (clift (getitem (success domain record_type
                                                 records) "records"))
                          (fun recs =>
                        cbind (clift (iter_of recs)) (fun recs =>
                        for_each recs (fun record =>
                          show P (AddRow [CStrOfRecord record]))))))))
                   s tt (net s) (cols ++ body))
             /\ List.filter is_row cols = []
             /\ List.filter is_row body = body
             /\ length body = length records)
    as (cols & body & Htable & Hcols & Hbody & Hlen).
  { destruct (String.eqb (upper record_type) "MX") eqn:Hmx.
    - apply String.eqb_eq in Hmx.
      destruct (returns_for_each_rows
                  (fun record =>
                     cbind (clift (index_of record "preference"))
                       (fun preference =>
                     cbind (clift (index_of record "exchange"))
                       (fun exchange =>
                     show P (AddRow [CStrOfAtom preference;
                                     CAtom exchange]))))
                  records Hp) as (os & Hos & Hrows & Hn).
      { intros rec Hin. destruct (Hrec rec Hin) as (rd & Hrd).
        destruct (proj1 (record_of_row _ _ _ Hrd) Hmx) as (p & e & Hp1 & Hp2).
        exists (AddRow [CStrOfAtom p; CAtom e]). split; [reflexivity|].
        intros s. unfold cbind, clift. rewrite Hp1, Hp2. reflexivity. }
      exists [AddColumn "Priority"; AddColumn "Mail Server"], os.
      split; [|auto]. intros s.
      change ([AddColumn "Priority"; AddColumn "Mail Server"] ++ os)
        with ([AddColumn "Priority"] ++ [AddColumn "Mail Server"]
              ++ [] ++ [] ++ os).
      eapply returns_bind; [apply returns_show, Hp|]. intros s1 <- _.
      eapply returns_bind; [apply returns_show, Hp|]. intros s2 <- _.
      eapply returns_bind;
        [apply returns_clift, getitem_some, success_records|].
      intros s3 <- _.
      eapply returns_bind; [apply returns_clift; reflexivity|].
      intros s4 <- _. apply Hos.
    - destruct (String.eqb (upper record_type) "SOA") eqn:Hsoa.
      + apply String.eqb_eq in Hsoa.
        destruct (returns_for_each_rows
                    (fun record =>
                       cbind (clift (items_of record)) (fun items =>
                       show P (AddItemRows items)))
                    records Hp) as (os & Hos & Hrows & Hn).
        { intros rec Hin. destruct (Hrec rec Hin) as (rd & Hrd).
          destruct (proj2 (record_of_row _ _ _ Hrd) Hsoa) as (items & Hi).
          exists (AddItemRows items). split; [reflexivity|].
          intros s. unfold cbind, clift. rewrite Hi. reflexivity. }
        exists [AddColumn "Field"; AddColumn "Value"], os.
        split; [|auto]. intros s.
        change ([AddColumn "Field"; AddColumn "Value"] ++ os)
          with ([] ++ [] ++ [AddColumn "Field"] ++ [AddColumn "Value"]
                ++ [] ++ [] ++ os).
        eapply returns_bind;
          [apply returns_clift, getitem_some, success_record_type|].
        intros s0 <- _.
        eapply returns_bind; [apply returns_clift; reflexivity|].
        intros s0' <- _. rewrite Hsoa. rewrite String.eqb_refl.
        eapply returns_bind; [apply returns_show, Hp|]. intros s1 <- _.
        eapply returns_bind; [apply returns_show, Hp|]. intros s2 <- _.
        eapply returns_bind;
          [apply returns_clift, getitem_some, success_records|].
        intros s3 <- _.
        eapply returns_bind; [apply returns_clift; reflexivity|].
        intros s4 <- _. apply Hos.
      + destruct (returns_for_each_rows
                    (fun record => show P (AddRow [CStrOfRecord record]))
                    records Hp) as (os & Hos & Hrows & Hn).
        { intros rec Hin. exists (AddRow [CStrOfRecord rec]).
          split; reflexivity. }
        exists [AddColumn "Record"], os.
        split; [|auto]. intros s.
        change ([AddColumn "Record"] ++ os)
          with ([] ++ [] ++ [AddColumn "Record"] ++ [] ++ [] ++ os).
        eapply returns_bind;
          [apply returns_clift, getitem_some, success_record_type|].
        intros s0 <- _.
        eapply returns_bind; [apply returns_clift; reflexivity|].
        intros s0' <- _. rewrite Hsoa.
        eapply returns_bind; [apply returns_show, Hp|]. intros s1 <- _.
        eapply returns_bind;
          [apply returns_clift, getitem_some, success_records|].
        intros s3 <- _.
        eapply returns_bind; [apply returns_clift; reflexivity|].
        intros s4 <- _. apply Hos. }
  exists (cols ++ body). split.
  - intros s. unfold format_text_output.
    change ([PrintResultsFor (VStr domain); PrintRecordType (VStr record_type);
             PrintRecordsFound (VInt (Z.of_nat (length records))); NewTable]
            ++ (cols ++ body) ++ [PrintTable]
            ++ (if verbose then [PrintCompleted] else []))
      with ([] ++ [] ++ [PrintResultsFor (VStr domain)]
            ++ [] ++ [PrintRecordType (VStr record_type)]
            ++ [] ++ [PrintRecordsFound (VInt (Z.of_nat (length records)))]
            ++ [NewTable] ++ [] ++ []
            ++ (cols ++ body) ++ [PrintTable]
            ++ (if verbose then [PrintCompleted] else [])).
    eapply returns_bind;
      [apply returns_clift, getitem_some, success_success|].
    intros s1 <- _. simpl negb. cbv iota.
    eapply returns_bind;
      [apply returns_clift, getitem_some, success_domain|].
    intros s2 <- _.
    eapply returns_bind; [apply returns_show, Hp|]. intros s3 <- _.
    eapply returns_bind;
      [apply returns_clift, getitem_some, success_record_type|].
    intros s4 <- _.
    eapply returns_bind; [apply returns_show, Hp|]. intros s5 <- _.
    eapply returns_bind;
      [apply returns_clift, getitem_some, success_count|].
    intros s6 <- _.
    eapply returns_bind; [apply returns_show, Hp|]. intros s7 <- _.
    eapply returns_bind; [apply returns_show, Hp|]. intros s8 <- _.
    eapply returns_bind;
      [apply returns_clift, getitem_some, success_record_type|].
    intros s9 <- _.
    eapply returns_bind; [apply returns_clift; reflexivity|].
    intros s10 <- _.
    eapply returns_bind; [apply Htable|]. intros s11 <- _.
    eapply returns_bind; [apply returns_show, Hp|]. intros s12 <- _.
    destruct verbose; [apply returns_show, Hp|apply returns_ret].
  - rewrite List.filter_app, Hcols, Hbody. simpl. exact Hlen.
Qed.

(** *** One lookup and its output *)

(** The two forms of a dictionary returned by [dns_lookup]. *)
Lemma dns_lookup_forms domain record_type (st : state W) :
  exists r st',
    dns_lookup lib domain record_type st = (inr r, st')
    /\ ((exists error qname,
            r = failure error qname record_type /\ succeeded r = false)
        \/ (exists qname answers records,
               Forall2 (fun rdata record =>
                          record_of record_type rdata = inr record)
                       answers records
               /\ r = success qname record_type records
               /\ succeeded r = true)).
Proof.
  destruct (dns_lookup_cases lib domain record_type (backend st))
    as (r & w & cs & Hrun & Hcases).
  exists r. eexists. split; [apply Hrun; reflexivity|].
  assert (forall error q, succeeded (failure error q record_type) = false)
    as Hf by (intros; unfold succeeded; rewrite failure_success; reflexivity).
  assert (forall q rs, succeeded (success q record_type rs) = true)
    as Hs by (intros; unfold succeeded; rewrite success_success; reflexivity).
  destruct Hcases
    as [(_ & -> & _)|[(_ & _ & -> & _)|(_ & q & _ & _ & Hout)]];
    [left; eauto|left; eauto|].
  destruct Hout
    as [(e & _ & ->)|[(a & rs & _ & HF & ->)|(a & rd & e & _ & _ & _ & ->)]];
    [left; eauto|right; eauto 10|left; eauto].
Qed.

Lemma format_text_lookup domain record_type (st : state W) r verbose :
  never_raises P ->
  fst (dns_lookup lib domain record_type st) = inr r ->
  exists os,
    forall s : cli_state W C,
      returns (format_text_output P r verbose) s tt (net s) os.
Proof.
  intros Hp Hr.
  destruct (dns_lookup_forms domain record_type st)
    as (r' & st' & Hrun & Hforms).
  rewrite Hrun in Hr. injection Hr as ->.
  destruct Hforms as [(error & q & -> & _)|(q & a & rs & HF & -> & _)].
  - eexists. intros s. apply format_text_failure, Hp.
  - destruct (format_text_success q record_type a rs verbose Hp HF)
      as (rows & Hrows & _).
    eexists. exact Hrows.
Qed.

Lemma getitem_success_of_lookup domain record_type (st : state W) r :
  fst (dns_lookup lib domain record_type st) = inr r ->
  getitem r "success" = inr (VBool (succeeded r)).
Proof.
  intros Hr.
  destruct (dns_lookup_forms domain record_type st)
    as (r' & st' & Hrun & Hforms).
  rewrite Hrun in Hr. injection Hr as ->.
  destruct Hforms as [(error & q & -> & ->)|(q & a & rs & HF & -> & ->)];
    apply getitem_some; [apply failure_success|apply success_success].
Qed.

Lemma perform_one_returns domain n output_format verbose quiet exit_code
    record_type (st : state W) r st' :
  never_raises P ->
  dns_lookup lib domain record_type st = (inr r, st') ->
  exists os,
    (forall s : cli_state W C, net s = st ->
        returns (perform_one lib P domain n output_format verbose quiet
                             exit_code record_type)
                s (if succeeded r then exit_code else 1%Z) st' os)
    /\ (quiet = true -> output_format = "json" -> os = [PrintJson r]).
Proof.
  intros Hp Hrun.
  assert (fst (dns_lookup lib domain record_type st) = inr r) as Hr
    by (rewrite Hrun; reflexivity).
  assert (exists os1,
             (forall s1 : cli_state W C,
                 returns (if negb quiet && (1 <? n)%nat
                          then show P (PrintQuerying record_type)
                          else cret tt) s1 tt (net s1) os1)
             /\ (quiet = true -> os1 = [])) as (os1 & H1 & Hq1).
  { destruct quiet; simpl.
    - exists []. split; [intros; apply returns_ret|auto].
    - destruct (1 <? n)%nat.
      + eexists. split; [intros; apply returns_show, Hp|discriminate].
      + exists []. split; [intros; apply returns_ret|auto]. }
  assert (exists os2,
             (forall s1 : cli_state W C, net s1 = st ->
                 returns (if negb quiet && (n =? 1)%nat then
                            cbind (show P ProgressStart) (fun _ =>
                              finally
                                (cbind (show P (ProgressAddTask record_type))
                                   (fun _ =>
                                 cbind (lookup lib domain record_type)
                                   (fun result =>
                                 cbind (show P ProgressUpdate) (fun _ =>
                                 cret result))))
                                (show P ProgressStop))
                          else lookup lib domain record_type)
                         s1 r st' os2)
             /\ (quiet = true -> os2 = [])) as (os2 & H2 & Hq2).
  { destruct (negb quiet && (n =? 1)%nat) eqn:Hcond.
    - exists ([ProgressStart]
              ++ ([ProgressAddTask record_type] ++ [] ++ [ProgressUpdate]
                  ++ [])
              ++ [ProgressStop]).
      split; [|intros ->; discriminate].
      intros s1 Hnet.
      eapply returns_bind; [apply returns_show, Hp|]. intros s2 Hs2 _.
      eapply returns_finally.
      + eapply returns_bind; [apply returns_show, Hp|]. intros s3 Hs3 _.
        eapply returns_bind.
        { apply returns_lookup. rewrite Hs3, Hs2, Hnet. exact Hrun. }
        intros s4 Hs4 _.
        eapply returns_bind; [apply returns_show, Hp|]. intros s5 Hs5 _.
        rewrite <- Hs4, <- Hs5. apply returns_ret.
      + intros s6 Hs6 _. rewrite <- Hs6. apply returns_show, Hp.
    - exists []. split; [|auto]. intros s1 Hnet.
      apply returns_lookup. rewrite Hnet. exact Hrun. }
  assert (exists os3,
             (forall s1 : cli_state W C,
                 returns (if String.eqb output_format "json"
                          then format_json_output P r
                          else format_text_output P r verbose)
                         s1 tt (net s1) os3)
             /\ (output_format = "json" -> os3 = [PrintJson r]))
    as (os3 & H3 & Hq3).
  { destruct (String.eqb_spec output_format "json") as [->|Hne].
    - eexists. split; [intros; apply returns_show, Hp|auto].
    - destruct (format_text_lookup _ _ _ r verbose Hp Hr) as (os & Hos).
      exists os. split; [exact Hos|congruence]. }
  exists (os1 ++ os2 ++ os3 ++ [] ++ []). split.
  - intros s Hs. unfold perform_one.
    eapply returns_bind; [apply H1|]. intros s1 Hs1 _.
    eapply returns_bind; [apply H2; rewrite Hs1; exact Hs|].
    intros s2 Hs2 _.
    eapply returns_bind; [apply H3|]. intros s3 Hs3 _.
    eapply returns_bind.
    { apply returns_clift. apply (getitem_success_of_lookup _ _ _ _ Hr). }
    intros s4 Hs4 _. simpl truthy.
    rewrite <- Hs2, <- Hs3, <- Hs4.
    destruct (succeeded r); apply returns_ret.
  - intros Hq Hj. rewrite (Hq1 Hq), (Hq2 Hq), (Hq3 Hj). reflexivity.
Qed.

(** *** The loop over the record types *)

Lemma lookups_cons domain record_type record_types (st : state W) :
  exists r st',
    dns_lookup lib domain record_type st = (inr r, st')
    /\ lookups lib domain (record_type :: record_types) st
       = (r :: fst (lookups lib domain record_types st'),
          snd (lookups lib domain record_types st')).
Proof.
  destruct (dns_lookup_forms domain record_type st) as (r & st' & Hrun & _).
  exists r, st'. split; [exact Hrun|]. simpl. rewrite Hrun.
  destruct (lookups lib domain record_types st'). reflexivity.
Qed.

Lemma lookups_length domain record_types (st : state W) :
  length (fst (lookups lib domain record_types st)) = length record_types.
Proof.
  revert st. induction record_types as [|t ts IH]; intros st.
  - reflexivity.
  - destruct (lookups_cons domain t ts st) as (r & st' & _ & ->).
    simpl. rewrite IH. reflexivity.
Qed.

Lemma perform_loop_returns domain n output_format verbose quiet
    record_types :
  never_raises P ->
  forall exit_code (st : state W),
  exists os,
    (forall s : cli_state W C, net s = st ->
        returns (perform_loop lib P domain n output_format verbose quiet
                              record_types exit_code)
                s
                (if forallb succeeded (fst (lookups lib domain record_types
                                                    st))
                 then exit_code else 1%Z)
                (snd (lookups lib domain record_types st))
                os)
    /\ (quiet = true -> output_format = "json" ->
        os = map PrintJson (fst (lookups lib domain record_types st))).
Proof.
  intros Hp. induction record_types as [|t ts IH]; intros exit_code st.
  - exists []. split; [|reflexivity].
    intros s <-. apply returns_ret.
  - destruct (lookups_cons domain t ts st) as (r & st' & Hrun & ->).
    destruct (perform_one_returns domain n output_format verbose quiet
                exit_code t st r st' Hp Hrun) as (os1 & H1 & Hq1).
    destruct (IH (if succeeded r then exit_code else 1%Z) st')
      as (os2 & H2 & Hq2).
    exists (os1 ++ os2). split.
    + intros s Hs. simpl perform_loop.
      eapply returns_bind; [apply H1, Hs|].
      intros s1 Hs1 _. simpl fst. simpl snd. simpl forallb.
      replace (if succeeded r && forallb succeeded
                                   (fst (lookups lib domain ts st'))
               then exit_code else 1%Z)
        with (if forallb succeeded (fst (lookups lib domain ts st'))
              then (if succeeded r then exit_code else 1%Z) else 1%Z)
        by (destruct (succeeded r), (forallb succeeded _); reflexivity).
      apply H2, Hs1.
    + intros Hq Hj. simpl. rewrite (Hq1 Hq Hj), (Hq2 Hq Hj). reflexivity.
Qed.

(** *** [main] *)

Lemma check_types_valid record_types :
  forallb is_valid_type record_types = true ->
  forall s : cli_state W C,
    returns (check_types P record_types) s None (net s) [].
Proof.
  induction record_types as [|t ts IH]; intros Hall s.
  - apply returns_ret.
  - simpl in Hall. apply andb_prop in Hall as [Ht Hts].
    simpl. rewrite Ht. simpl. apply IH, Hts.
Qed.

Lemma check_types_invalid record_types bad :
  never_raises P ->
  List.find (fun rt => negb (is_valid_type rt)) record_types = Some bad ->
  forall s : cli_state W C,
    returns (check_types P record_types) s (Some 1%Z) (net s)
            [PrintInvalidType bad; PrintValidTypes valid_types].
Proof.
  intros Hp. induction record_types as [|t ts IH]; intros Hbad s.
  - discriminate.
  - simpl in *. destruct (negb (is_valid_type t)).
    + injection Hbad as ->.
      change [PrintInvalidType bad; PrintValidTypes valid_types]
        with ([PrintInvalidType bad] ++ [PrintValidTypes valid_types] ++ []).
      eapply returns_bind; [apply returns_show, Hp|]. intros s1 <- _.
      eapply returns_bind; [apply returns_show, Hp|]. intros s2 <- _.
      apply returns_ret.
    + apply IH, Hbad.
Qed.

Lemma print_banner_returns quiet (s : cli_state W C) :
  never_raises P ->
  returns (print_banner P quiet) s tt (net s)
          (if quiet then [] else [PrintBanner]).
Proof.
  intros Hp. unfold print_banner.
  destruct quiet; simpl; [apply returns_ret|apply returns_show, Hp].
Qed.

Lemma main_valid_types (a : args) (st : state W) :
  never_raises P ->
  forallb is_valid_type (parse_record_types (record_type a)) = true ->
  exists os,
    (forall s : cli_state W C, net s = st ->
        returns (main lib P a) s
                (if forallb succeeded
                      (fst (lookups lib (domain a)
                              (parse_record_types (record_type a)) st))
                 then 0%Z else 1%Z)
                (snd (lookups lib (domain a)
                        (parse_record_types (record_type a)) st))
                os)
    /\ (quiet a = true -> output a = "json" ->
        os = map PrintJson
               (fst (lookups lib (domain a)
                       (parse_record_types (record_type a)) st))).
Proof.
  intros Hp Hvalid.
  destruct (perform_loop_returns (domain a)
              (length (parse_record_types (record_type a)))
              (output a) (verbose a) (quiet a)
              (parse_record_types (record_type a)) Hp 0%Z st)
    as (os & Hos & Hq).
  exists ((if quiet a || String.eqb (output a) "json" then []
           else [PrintBanner]) ++ [] ++ os).
  split.
  - intros s Hs. unfold main.
    eapply returns_bind; [apply print_banner_returns, Hp|].
    intros s1 Hs1 _.
    eapply returns_bind; [apply check_types_valid, Hvalid|].
    intros s2 Hs2 _.
    assert (net s2 = st) as Hnet by congruence.
    destruct (Hos s2 Hnet) as (c & Hc).
    unfold returns. unfold perform_lookup. rewrite Hc. eauto.
  - intros Hq1 Hj. rewrite Hq1. simpl. apply Hq; assumption.
Qed.

(** *** What holds whatever the presentation does *)

Section Invariants.

Variable R : state W -> state W -> Prop.
Hypothesis R_refl : forall st, R st st.
Hypothesis R_trans : forall st1 st2 st3, R st1 st2 -> R st2 st3 -> R st1 st3.

Lemma net_inv_ret {A} (a : A) : net_inv (C := C) R (cret a).
Proof. intros s. apply R_refl. Qed.

Lemma net_inv_clift {A} (r : result A) : net_inv (C := C) R (clift r).
Proof. intros s. unfold clift. destruct r; apply R_refl. Qed.

Lemma net_inv_show (o : op) : net_inv R (show (W := W) P o).
Proof.
  intros s. unfold show. destruct (present P (screen s) o). apply R_refl.
Qed.

Lemma net_inv_bind {A B} (m : CM W C A) (k : A -> CM W C B) :
  net_inv R m -> (forall a, net_inv R (k a)) -> net_inv R (cbind m k).
Proof.
  intros Hm Hk s. unfold cbind. specialize (Hm s).
  destruct (m s) as [[e|a] s1]; simpl in *; [exact Hm|].
  eapply R_trans; [exact Hm|]. apply Hk.
Qed.

Lemma net_inv_finally {A} (body : CM W C A) (cleanup : CM W C unit) :
  net_inv R body -> net_inv R cleanup -> net_inv R (finally body cleanup).
Proof.
  intros Hb Hc s. unfold finally. specialize (Hb s).
  destruct (body s) as [r s1]. specialize (Hc s1).
  destruct (cleanup s1) as [[e|u] s2]; simpl in *;
    eapply R_trans; eassumption.
Qed.

Lemma net_inv_for_each {A} (l : list A) (body : A -> CM W C unit) :
  (forall x, net_inv R (body x)) -> net_inv R (for_each l body).
Proof.
  intros Hbody. induction l as [|x l IH]; simpl.
  - apply net_inv_ret.
  - apply net_inv_bind; [apply Hbody|intros _; exact IH].
Qed.

Lemma net_inv_lookup domain record_type :
  (forall st, R st (snd (dns_lookup lib domain record_type st))) ->
  net_inv (C := C) R (lookup lib domain record_type).
Proof.
  intros H s. unfold lookup. specialize (H (net s)).
  destruct (dns_lookup lib domain record_type (net s)). exact H.
Qed.

Ltac net_inv_steps :=
  repeat first
    [ apply net_inv_ret
    | apply net_inv_clift
    | apply net_inv_show
    | apply net_inv_for_each; intros ?
    | apply net_inv_bind; [|intros ?]
    | match goal with
      | |- net_inv _ (if ?c then _ else _) => destruct c
      end ].

Lemma net_inv_format_text result verbose :
  net_inv R (format_text_output (W := W) P result verbose).
Proof. unfold format_text_output. net_inv_steps. Qed.

Lemma net_inv_print_banner quiet : net_inv R (print_banner (W := W) P quiet).
Proof. unfold print_banner. net_inv_steps. Qed.

Lemma net_inv_check_types record_types :
  net_inv R (check_types (W := W) P record_types).
Proof.
  induction record_types as [|t ts IH]; simpl; [apply net_inv_ret|].
  destruct (negb (is_valid_type t)); [net_inv_steps|exact IH].
Qed.

Lemma net_inv_perform_one domain n output_format verbose quiet exit_code
    record_type :
  (forall st, R st (snd (dns_lookup lib domain record_type st))) ->
  net_inv R (perform_one lib P domain n output_format verbose quiet exit_code
                         record_type).
Proof.
  intros H. unfold perform_one, format_json_output.
  apply net_inv_bind; [net_inv_steps|intros _].
  apply net_inv_bind.
  { destruct (negb quiet && (n =? 1)%nat); [|apply net_inv_lookup, H].
    apply net_inv_bind; [apply net_inv_show|intros _].
    apply net_inv_finally; [|apply net_inv_show].
    apply net_inv_bind; [apply net_inv_show|intros _].
    apply net_inv_bind; [apply net_inv_lookup, H|intros r].
    net_inv_steps. }
  intros r. apply net_inv_bind.
  { destruct (String.eqb output_format "json");
      [apply net_inv_show|apply net_inv_format_text]. }
  intros _. net_inv_steps.
Qed.

Lemma net_inv_perform_loop domain n output_format verbose quiet
    record_types :
  (forall rt, In rt record_types ->
              forall st, R st (snd (dns_lookup lib domain rt st))) ->
  forall exit_code,
    net_inv R (perform_loop lib P domain n output_format verbose quiet
                            record_types exit_code).
Proof.
  induction record_types as [|t ts IH]; intros H exit_code; simpl.
  - apply net_inv_ret.
  - apply net_inv_bind.
    + apply net_inv_perform_one, H. left. reflexivity.
    + intros code. apply IH. intros rt Hrt. apply H. right. exact Hrt.
Qed.

Lemma check_types_none record_types (s s' : cli_state W C) :
  check_types P record_types s = (inr None, s') ->
  forallb is_valid_type record_types = true.
Proof.
  revert s. induction record_types as [|t ts IH]; intros s H.
  - reflexivity.
  - simpl in *. destruct (is_valid_type t); simpl in *.
    + eapply IH, H.
    + exfalso. revert H. unfold cbind, show. simpl.
      destruct (present P (screen s) (PrintInvalidType t)) as [[e|[]] c];
        [discriminate|]. simpl.
      destruct (present P c (PrintValidTypes valid_types)) as [[e|[]] c'];
        unfold cret; discriminate.
Qed.

Lemma net_inv_main (a : args) :
  (forall rt, In rt (parse_record_types (record_type a)) ->
              is_valid_type rt = true ->
              forall st, R st (snd (dns_lookup lib (domain a) rt st))) ->
  net_inv R (main lib P a).
Proof.
  intros H s. unfold main, cbind.
  pose proof (net_inv_print_banner
                (quiet a || String.eqb (output a) "json") s) as Hb.
  destruct (print_banner P (quiet a || String.eqb (output a) "json") s)
    as [[e|[]] s1]; [exact Hb|]. simpl in Hb.
  pose proof (net_inv_check_types (parse_record_types (record_type a)) s1)
    as Hc.
  destruct (check_types P (parse_record_types (record_type a)) s1)
    as [[e|[code|]] s2] eqn:Hcheck; simpl in Hc;
    [eapply R_trans; eassumption|eapply R_trans; eassumption|].
  apply check_types_none in Hcheck.
  assert (R (net s) (net s2)) as H12 by (eapply R_trans; eassumption).
  assert (net_inv R (perform_lookup lib P (domain a)
                       (parse_record_types (record_type a)) (output a)
                       (verbose a) (quiet a))) as Hp.
  { unfold perform_lookup. apply net_inv_perform_loop.
    intros rt Hin. apply H; [exact Hin|].
    rewrite forallb_forall in Hcheck. apply Hcheck, Hin. }
  specialize (Hp s2).
  destruct (perform_lookup lib P (domain a)
              (parse_record_types (record_type a)) (output a) (verbose a)
              (quiet a) s2) as [[[|e]|code] s3]; simpl in Hp.
  - unfold show.
    destruct (present P (screen s3) PrintCancelled) as [[e|[]] c]; simpl;
      eapply R_trans; eassumption.
  - unfold show.
    destruct (present P (screen s3) (PrintUnexpected (exc_str e)))
      as [[e'|[]] c]; simpl; [eapply R_trans; eassumption|].
    destruct (verbose a); simpl; [|eapply R_trans; eassumption].
    destruct (present P c PrintTraceback) as [[e'|[]] c']; simpl;
      eapply R_trans; eassumption.
  - simpl. eapply R_trans; eassumption.
Qed.

End Invariants.

(** *** More on the runs of the lookups *)


Lemma lookups_invalid domain record_types (st : state W) :
  validate_domain domain = false ->
  snd (lookups lib domain record_types st) = st
  /\ forallb succeeded (fst (lookups lib domain record_types st))
     = match record_types with [] => true | _ => false end.
Proof.
  intros Hv. destruct record_types as [|t ts]; [auto|].
  assert (forall ts st, snd (lookups lib domain ts st) = st) as Hsnd.
  { clear -Hv. induction ts as [|t ts IH]; intros st; [reflexivity|].
    simpl. rewrite (dns_lookup_invalid lib _ _ _ Hv).
    specialize (IH st). destruct (lookups lib domain ts st). exact IH. }
  split; [apply Hsnd|].
  simpl. rewrite (dns_lookup_invalid lib _ _ _ Hv).
  destruct (lookups lib domain ts st). simpl.
  unfold succeeded. rewrite failure_success. reflexivity.
Qed.

Lemma parse_record_types_nonempty record_type :
  parse_record_types record_type <> [].
Proof.
  unfold parse_record_types, split_commas.
  destruct (String.eqb (upper record_type) "ALL"); [discriminate|].
  pose proof (split_on_nonempty "," (chars record_type)) as H.
  destruct (split_on "," (chars record_type)); [congruence|discriminate].
Qed.

Lemma find_invalid record_types :
  forallb is_valid_type record_types = false ->
  exists bad,
    List.find (fun rt => negb (is_valid_type rt)) record_types = Some bad.
Proof.
  induction record_types as [|t ts IH]; simpl; [discriminate|].
  destruct (is_valid_type t); simpl; eauto.
Qed.

Lemma main_invalid_returns (a : args) bad (s : cli_state W C) :
  never_raises P ->
  List.find (fun rt => negb (is_valid_type rt))
            (parse_record_types (record_type a)) = Some bad ->
  returns (main lib P a) s 1%Z (net s)
          ((if quiet a || String.eqb (output a) "json" then []
            else [PrintBanner])
           ++ [PrintInvalidType bad; PrintValidTypes valid_types] ++ []).
Proof.
  intros Hp Hbad. unfold main.
  eapply returns_bind; [apply print_banner_returns, Hp|]. intros s1 <- _.
  eapply returns_bind; [apply check_types_invalid; eassumption|].
  intros s2 <- _. apply returns_ret.
Qed.


End CliRuns.

(** ** What the command line does *)

Section CliExtras.

Import Cli.

Context {W C : Type} (lib : library W) (P : presenter C).


(** X13: the exit code of [main].  When every requested record type is
    valid and the libraries do not raise, [main] runs one lookup for each
    type, in their order and each from the state the one before has left,
    and returns 0 when all of them succeeded and 1 otherwise. *)
Theorem main_exit_code (a : args) (s : cli_state W C) :
  never_raises P ->
  forallb is_valid_type (parse_record_types (record_type a)) = true ->
  exists os,
    returns (main lib P a) s
            (if forallb succeeded
                  (fst (lookups lib (domain a)
                          (parse_record_types (record_type a)) (net s)))
             then 0%Z else 1%Z)
            (snd (lookups lib (domain a)
                    (parse_record_types (record_type a)) (net s)))
            os
    /\ length (fst (lookups lib (domain a)
                      (parse_record_types (record_type a)) (net s)))
       = length (parse_record_types (record_type a)).
Proof.
  intros Hp Hvalid.
  destruct (main_valid_types lib P a (net s) Hp Hvalid) as (os & Hos & _).
  exists os. split; [apply Hos; reflexivity|apply lookups_length].
Qed.


(** X15: quiet JSON output is JSON only.  With -q and -o json, valid
    record types and libraries that do not raise, what [main] prints is
    one JSON document for each lookup, in their order, and nothing else:
    no banner, no progress display, no other line. *)
Theorem main_quiet_json (a : args) (s : cli_state W C) :
  never_raises P ->
  forallb is_valid_type (parse_record_types (record_type a)) = true ->
  quiet a = true ->
  output a = "json" ->
  shown (snd (main lib P a s))
  = shown s
    ++ map PrintJson
         (fst (lookups lib (domain a)
                 (parse_record_types (record_type a)) (net s))).
Proof.
  intros Hp Hvalid Hq Hj.
  destruct (main_valid_types lib P a (net s) Hp Hvalid) as (os & Hos & Hjson).
  destruct (Hos s eq_refl) as (c & Hc). rewrite Hc. simpl.
  rewrite (Hjson Hq Hj). reflexivity.
Qed.


(** X17: for a domain that the validator rejects, [main] never reaches the
    resolver library, whatever the record types asked and whatever the
    presentation libraries do; when these do not raise, the exit code
    is 1. *)
Theorem main_invalid_domain (a : args) (s : cli_state W C) :
  validate_domain (domain a) = false ->
  net (snd (main lib P a s)) = net s
  /\ (never_raises P -> fst (main lib P a s) = inr 1%Z).
Proof.
  intros Hv. split.
  - symmetry. apply (net_inv_main lib P eq (@eq_refl _) (@eq_trans _)).
    intros rt _ _ st. rewrite (dns_lookup_invalid lib _ _ _ Hv). reflexivity.
  - intros Hp.
    destruct (forallb is_valid_type (parse_record_types (record_type a)))
      eqn:Hvalid.
    + destruct (main_valid_types lib P a (net s) Hp Hvalid) as (os & Hos & _).
      destruct (Hos s eq_refl) as (c & Hc). rewrite Hc. simpl.
      destruct (lookups_invalid lib (domain a)
                  (parse_record_types (record_type a)) (net s) Hv)
        as [_ ->].
      pose proof (parse_record_types_nonempty (record_type a)) as Hne.
      destruct (parse_record_types (record_type a)); [congruence|reflexivity].
    + destruct (find_invalid _ Hvalid) as (bad & Hbad).
      destruct (main_invalid_returns lib P a bad s Hp Hbad) as (c & Hc).
      rewrite Hc. reflexivity.
Qed.

(** X18: whatever is typed and whatever the libraries do, the calls that
    [main] adds to the resolver side are conversions of the domain given
    and queries for record types among the eight valid ones. *)
Theorem main_queries_valid_types (a : args) (s : cli_state W C) :
  exists cs,
    calls (net (snd (main lib P a s))) = calls (net s) ++ cs
    /\ Forall (valid_call (domain a)) cs.
Proof.
  apply (net_inv_main lib P (grown_by_valid_calls (domain a))).
  - intros st. exists []. rewrite app_nil_r. auto.
  - intros st1 st2 st3 (cs1 & H1 & F1) (cs2 & H2 & F2).
    exists (cs1 ++ cs2). rewrite H2, H1, <- app_assoc.
    split; [reflexivity|]. apply Forall_app. auto.
  - intros rt _ Hrt st.
    destruct (dns_lookup_cases lib (domain a) rt (backend st))
      as (r & w & cs & Hrun & Hcases).
    rewrite (Hrun st eq_refl). exists cs. split; [reflexivity|].
    destruct Hcases
      as [(_ & _ & _ & ->)|[(_ & _ & _ & _ & ->)|(_ & q & _ & -> & _)]].
    + constructor.
    + repeat constructor.
    + apply Forall_app. split; [|repeat constructor; exact Hrt].
      unfold reverse_calls. destruct (String.eqb (upper rt) "PTR");
        repeat constructor.
Qed.

End CliExtras.

(** *** The command line on the small resolver *)

Lemma plain_never_raises : Cli.never_raises Screen.plain.
Proof. intros c o. reflexivity. Qed.


Lemma main_exit_code_witness :
  fst (Cli.main Fixture.lib Screen.plain
         (Screen.arguments "example.com" "txt, soa" "text" false true)
         Screen.start)
  = inr 0%Z
  /\ fst (Cli.main Fixture.lib Screen.plain
            (Screen.arguments "example.com" "txt,mx" "text" false true)
            Screen.start)
     = inr 1%Z.
Proof.
  split.
  - destruct (main_exit_code Fixture.lib Screen.plain
                (Screen.arguments "example.com" "txt, soa" "text" false true)
                Screen.start plain_never_raises)
      as (os & (c & Hc) & _); [reflexivity|].
    rewrite Hc. vm_compute. reflexivity.
  - destruct (main_exit_code Fixture.lib Screen.plain
                (Screen.arguments "example.com" "txt,mx" "text" false true)
                Screen.start plain_never_raises)
      as (os & (c & Hc) & _); [reflexivity|].
    rewrite Hc. vm_compute. reflexivity.
Defined.


Lemma main_quiet_json_witness :
  Cli.shown (snd (Cli.main Fixture.lib Screen.plain
                    (Screen.arguments "example.com" "a,txt" "json" false true)
                    Screen.start))
  = [Cli.PrintJson
       (success "example.com" "A"
          [RStr "93.184.216.34"; RStr "93.184.216.35"]);
     Cli.PrintJson (success "example.com" "TXT" [RStr "v=spf1 -all"])].
Proof.
  rewrite (main_quiet_json Fixture.lib Screen.plain
             (Screen.arguments "example.com" "a,txt" "json" false true)
             Screen.start plain_never_raises);
    vm_compute; reflexivity.
Defined.


Lemma main_invalid_domain_witness :
  Cli.net (snd (Cli.main Fixture.lib Screen.plain
                  (Screen.arguments "8.8.8.8" "PTR" "text" false false)
                  Screen.start))
  = Zones.start
  /\ fst (Cli.main Fixture.lib Screen.plain
            (Screen.arguments "8.8.8.8" "PTR" "text" false false)
            Screen.start)
     = inr 1%Z.
Proof.
  destruct (main_invalid_domain Fixture.lib Screen.plain
              (Screen.arguments "8.8.8.8" "PTR" "text" false false)
              Screen.start) as [Hnet Hcode].
  - reflexivity.
  - split; [exact Hnet|]. exact (Hcode plain_never_raises).
Defined.

(** ** Runs *)

Example validate_example_com : validate_domain "example.com" = true.
Proof. vm_compute. reflexivity. Qed.

Example validate_ipv4 : validate_domain "8.8.8.8" = false.
Proof. vm_compute. reflexivity. Qed.

Example validate_misc :
  map validate_domain
    ["a.co"; "a.c"; "-a.com"; "a-.com"; "a..com"; ".com"; "com";
     "a-b.c-d.org"; "a.b.c.dd"; "a.com."; "A9.Zz"; "a_b.com"; "not-an-ip";
     "2001:db8::1"; "xn--bcher-kva.example"]
  = [true; false; false; false; false; false; false;
     true; true; false; true; false; false;
     false; true].
Proof. vm_compute. reflexivity. Qed.

(** A label of 63 characters passes, one of 64 does not. *)
Example validate_label_length :
  validate_domain (text (replicate 63 "a"%char ++ chars ".com")) = true
  /\ validate_domain (text (replicate 64 "a"%char ++ chars ".com")) = false.
Proof. vm_compute. auto. Qed.

Example match_span :
  re_match domain_regex Fixture.newline_domain = Some 11.
Proof. vm_compute. reflexivity. Qed.

Example upper_ptr : map upper ["ptr"; "Ptr"; "PTR"; "mx"] = ["PTR"; "PTR"; "PTR"; "MX"].
Proof. vm_compute. reflexivity. Qed.

Example strip_quotes :
  strip dquote (text ([dquote; dquote] ++ chars "a" ++ [dquote] ++ chars "b"
                      ++ [dquote]))
  = text (chars "a" ++ [dquote] ++ chars "b").
Proof. vm_compute. reflexivity. Qed.

Example lookup_not_an_ip :
  dns_lookup Fixture.lib "not-an-ip" "PTR" Fixture.start
  = (inr (failure "Invalid domain format" "not-an-ip" "PTR"), Fixture.start).
Proof. vm_compute. reflexivity. Qed.

Example lookup_ptr_of_name :
  dns_lookup Fixture.lib "example.com" "PTR" Fixture.start
  = (inr (failure "Invalid IP address for PTR lookup" "example.com" "PTR"),
     {| backend := Fixture.example_zone;
        calls := [FromAddress "example.com"] |}).
Proof. vm_compute. reflexivity. Qed.

Example lookup_no_answer :
  dns_lookup Fixture.lib "example.com" "A" Fixture.start
  = (inr (failure "No A records found" "example.com" "A"),
     {| backend := Fixture.example_zone;
        calls := [Resolve "example.com" "A"] |}).
Proof. vm_compute. reflexivity. Qed.

Example lookup_lower_case_type :
  fst (dns_lookup Fixture.lib "example.com" "mx" Fixture.start)
  = inr (success "example.com" "mx"
           [RDict (py_dict [("preference", AInt 10);
                            ("exchange", AStr "mail.example.com")])]).
Proof. vm_compute. reflexivity. Qed.

(** An answer without the attributes of an MX record ends in the last
    handler. *)
Example lookup_attribute_error :
  fst (dns_lookup Fixture.lib "example.com" "MX"
         {| backend := [("example.com", [("MX", [Fixture.txt_answer])])];
            calls := [] |})
  = inr (failure
           "Unexpected error: 'TXT' object has no attribute 'preference'"
           "example.com" "MX").
Proof. vm_compute. reflexivity. Qed.

(** Only one newline, and only at the very end, gets past [$]. *)
Example validate_line_ends :
  map (fun e => validate_domain (text (chars "example.com" ++ e)))
    [[newline]; [newline; newline]; ["013"%char]; [newline; "a"%char]]
  = [true; false; false; false].
Proof. vm_compute. reflexivity. Qed.

(** The loop itself does not mind an empty list of answers: that none
    comes back is the resolver's doing. *)
Example lookup_empty_answer_list :
  fst (dns_lookup
         {| lib_resolve := fun (w : unit) _ _ => (inr [], w);
            lib_from_address := Fixture.no_address |}
         "example.com" "A" {| backend := tt; calls := [] |})
  = inr (success "example.com" "A" []).
Proof. vm_compute. reflexivity. Qed.

(** ** Runs of the command line *)

Example parse_spaces_and_case :
  Cli.parse_record_types " mx , a,,TxT " = ["MX"; "A"; ""; "TXT"]
  /\ Cli.parse_record_types "All" = Cli.all_types
  /\ Cli.parse_record_types "" = [""].
Proof. vm_compute. auto. Qed.

Example main_text_run :
  let '(r, s) :=
    Cli.main Fixture.lib Screen.plain
      (Screen.arguments "example.com" "a" "text" true false) Screen.start in
  r = inr 0%Z
  /\ Cli.shown s
     = [Cli.PrintBanner; Cli.ProgressStart; Cli.ProgressAddTask "A";
        Cli.ProgressUpdate; Cli.ProgressStop;
        Cli.PrintResultsFor (VStr "example.com");
        Cli.PrintRecordType (VStr "A"); Cli.PrintRecordsFound (VInt 2);
        Cli.NewTable; Cli.AddColumn "Record";
        Cli.AddRow [Cli.CStrOfRecord (RStr "93.184.216.34")];
        Cli.AddRow [Cli.CStrOfRecord (RStr "93.184.216.35")];
        Cli.PrintTable; Cli.PrintCompleted].
Proof. vm_compute. auto. Qed.

(** An exception of a library ends in the last handler of [main], after
    the lookup has been made. *)
Example main_library_exception :
  let '(r, s) :=
    Cli.main Fixture.lib Screen.no_tables
      (Screen.arguments "example.com" "a" "text" false true) Screen.start in
  r = inr 1%Z
  /\ calls (Cli.net s) = [Resolve "example.com" "A"]
  /\ List.last (Cli.shown s) Cli.PrintBanner
     = Cli.PrintUnexpected "cannot print a table".
Proof. vm_compute. auto. Qed.

(** An interrupt stops the progress display and ends in the first
    handler. *)
Example main_interrupt :
  let '(r, s) :=
    Cli.main Fixture.lib Screen.interrupted
      (Screen.arguments "example.com" "a" "json" false false) Screen.start in
  r = inr 1%Z
  /\ Cli.shown s
     = [Cli.ProgressStart; Cli.ProgressAddTask "A"; Cli.ProgressUpdate;
        Cli.ProgressStop; Cli.PrintCancelled].
Proof. vm_compute. auto. Qed.

(** Without -q, JSON output of several types comes with other lines. *)
Example main_json_not_quiet :
  let '(r, s) :=
    Cli.main Fixture.lib Screen.plain
      (Screen.arguments "8.8.8.8" "a,ptr" "json" false false) Screen.start in
  r = inr 1%Z
  /\ Cli.shown s
     = [Cli.PrintQuerying "A";
        Cli.PrintJson (failure "Invalid domain format" "8.8.8.8" "A");
        Cli.PrintQuerying "PTR";
        Cli.PrintJson (failure "Invalid domain format" "8.8.8.8" "PTR")].
Proof. vm_compute. auto. Qed.
